(** * The webpack resource loader: cache, dependency graph and invalidation

    A shallow embedding of [WebpackResourceLoader]
    (second document of [src/packages/angular/cli/utilities/package-manager.ts],
    lines 84-339) and the properties its specification states about it.

    The loader is a class with six mutable fields.  Its methods are modelled
    as functions on a record holding those fields; the [async] methods run in
    a small state-and-rejection monad.  What webpack and Node's [vm] module do
    is not part of the repository: the child compiler and the sandbox are
    parameters of the development, and every run of a child compiler is
    appended to a trace so that "the driver was (not) invoked" can be stated.

    The file also covers the package manager detection of the first
    document of the same source file, and the conversion of the [browsers]
    and [reporters] options in the Karma builder. *)

From Stdlib Require Import NArith String Ascii DecimalString DecimalN.
From stdpp Require Import gmap list.

#[local] Set Warnings "-clear-no-such-hyp".
#[local] Set Default Proof Using "Type".

Local Open Scope N_scope.

(** ** JavaScript strings

    A JavaScript string is a sequence of UTF-16 code units. *)

Abbreviation jsstring := (list N) (only parsing).

Definition js (s : string) : jsstring :=
  List.map N_of_ascii (list_ascii_of_string s).

(** Template-literal conversion of a non-negative integer, [`${n}`]. *)
Definition decimal (n : N) : jsstring :=
  js (NilEmpty.string_of_uint (N.to_uint n)).

(** [WhiteSpace] and [LineTerminator] of ECMAScript: the code units
    [String.prototype.trim] strips. *)
Definition isWhiteSpace (c : N) : bool :=
  (c =? 0x09) || (c =? 0x0A) || (c =? 0x0B) || (c =? 0x0C) || (c =? 0x0D)
  || (c =? 0x20) || (c =? 0xA0) || (c =? 0x1680)
  || ((0x2000 <=? c) && (c <=? 0x200A))
  || (c =? 0x2028) || (c =? 0x2029) || (c =? 0x202F) || (c =? 0x205F)
  || (c =? 0x3000) || (c =? 0xFEFF).

Fixpoint trimStart (s : jsstring) : jsstring :=
  match s with
  | c :: rest => if isWhiteSpace c then trimStart rest else s
  | [] => []
  end.

Definition trimEnd (s : jsstring) : jsstring := rev (trimStart (rev s)).

Definition trim (s : jsstring) : jsstring := trimEnd (trimStart s).

(** A string is truthy when it is not empty; [undefined] is falsy. *)
Definition truthy (s : option jsstring) : option jsstring :=
  match s with
  | Some ((_ :: _) as p) => Some p
  | _ => None
  end.

(** [s.match(/\.[jt]s$/)]: the search tries every start position; at a
    position the pattern needs a dot, then [j] or [t], then [s], then the
    end of the input. *)
Definition scriptSuffixHere (s : jsstring) : bool :=
  match s with
  | [c0; c1; c2] => (c0 =? 46) && ((c1 =? 106) || (c1 =? 116)) && (c2 =? 115)
  | _ => false
  end.

Fixpoint matchesScriptExtension (s : jsstring) : bool :=
  match s with
  | [] => false
  | _ :: rest => scriptSuffixHere s || matchesScriptExtension rest
  end.

Arguments js : simpl never.
Arguments decimal : simpl never.

(** ** Data model *)

(** [interface CompilationOutput] *)
Module CompilationOutput.
Record t := { content : jsstring; map : option jsstring; success : bool }.
End CompilationOutput.

(** The parent [Compilation]: the loader only reads [compiler.context]. *)
Record Compilation := { compiler_context : jsstring }.

(** Entries of a compilation's [errors] array: what webpack reported, or the
    [Error] that [_evaluate] throws (the spec's [InvalidResourceExport]). *)
Inductive CompilationError :=
| BuildError (message : jsstring)
| DidNotReturnString (filename : jsstring).

(** What the loader reads of a child compilation. *)
Record ChildCompilation := {
  assets : gmap jsstring jsstring;
  errors : list CompilationError;
  fileDependencies : list jsstring
}.

(** How a child compiler is set up by [_compile]: the arguments of
    [createChildCompiler] and of the plugins, and what the
    [angular-resource] scheme hooks are told to serve. *)
Record ChildRequest := {
  req_context : jsstring;
  req_filename : jsstring;
  req_entry : option jsstring;
  req_data : option jsstring;
  req_path : option jsstring;
  req_mimetype : option jsstring
}.

(** What [runAsChild] hands to its callback.  [ChildDone] carries the child
    compilation as webpack built it, before the loader's own hooks ran. *)
Inductive ChildOutcome :=
| ChildError (error : jsstring)
| ChildNoCompilation
| ChildDone (childCompilation : ChildCompilation).

(** Values a sandboxed script can leave in [context.resource].  Of an
    object the loader only reads the property [default] ([JsUndefined] when
    the object has none). *)
Inductive JsValue :=
| JsUndefined
| JsNull
| JsBoolean (b : bool)
| JsNumber (n : Z)
| JsString (s : jsstring)
| JsObject (default : JsValue).

Inductive VmOutcome :=
| VmThrew
| VmDone (resource : JsValue).

(** Rejections of the loader's promises. *)
Inductive LoaderError :=
| MissingParentCompilation
| UnsupportedResourceType (filePath : jsstring)
| ChildCompilerError (error : jsstring)
| UnknownChildCompilationError.

(** A JavaScript completion: a value, or something thrown (for a promise:
    resolved or rejected). *)
Inductive Completion (E A : Type) :=
| Normal (a : A)
| Abrupt (e : E).
Arguments Normal {E A} a.
Arguments Abrupt {E A} e.

(** The fields of [class WebpackResourceLoader], and [childRuns], the trace
    of the child compilers run so far (oldest first).  A [Map] is a finite
    map and a [Set] a finite set: no method depends on insertion order.
    The counter is a natural number (a double counts exactly up to 2^53). *)
Record WebpackResourceLoader := {
  _parentCompilation : option Compilation;
  _fileDependencies : gmap jsstring (gset jsstring);
  _reverseDependencies : gmap jsstring (gset jsstring);
  cache : gmap jsstring CompilationOutput.t;
  modifiedResources : gset jsstring;
  outputPathCounter : N;
  childRuns : list ChildRequest
}.

(** [new WebpackResourceLoader()] *)
Definition newLoader : WebpackResourceLoader :=
  {| _parentCompilation := None;
     _fileDependencies := ∅;
     _reverseDependencies := ∅;
     cache := ∅;
     modifiedResources := ∅;
     outputPathCounter := 1;
     childRuns := [] |}.

Definition set_parentCompilation (p : option Compilation) (l : WebpackResourceLoader) :=
  {| _parentCompilation := p;
     _fileDependencies := _fileDependencies l;
     _reverseDependencies := _reverseDependencies l;
     cache := cache l;
     modifiedResources := modifiedResources l;
     outputPathCounter := outputPathCounter l;
     childRuns := childRuns l |}.

Definition set_fileDependencies (m : gmap jsstring (gset jsstring)) (l : WebpackResourceLoader) :=
  {| _parentCompilation := _parentCompilation l;
     _fileDependencies := m;
     _reverseDependencies := _reverseDependencies l;
     cache := cache l;
     modifiedResources := modifiedResources l;
     outputPathCounter := outputPathCounter l;
     childRuns := childRuns l |}.

Definition set_reverseDependencies (m : gmap jsstring (gset jsstring)) (l : WebpackResourceLoader) :=
  {| _parentCompilation := _parentCompilation l;
     _fileDependencies := _fileDependencies l;
     _reverseDependencies := m;
     cache := cache l;
     modifiedResources := modifiedResources l;
     outputPathCounter := outputPathCounter l;
     childRuns := childRuns l |}.

Definition set_cache (m : gmap jsstring CompilationOutput.t) (l : WebpackResourceLoader) :=
  {| _parentCompilation := _parentCompilation l;
     _fileDependencies := _fileDependencies l;
     _reverseDependencies := _reverseDependencies l;
     cache := m;
     modifiedResources := modifiedResources l;
     outputPathCounter := outputPathCounter l;
     childRuns := childRuns l |}.

Definition set_modifiedResources (m : gset jsstring) (l : WebpackResourceLoader) :=
  {| _parentCompilation := _parentCompilation l;
     _fileDependencies := _fileDependencies l;
     _reverseDependencies := _reverseDependencies l;
     cache := cache l;
     modifiedResources := m;
     outputPathCounter := outputPathCounter l;
     childRuns := childRuns l |}.

Definition set_outputPathCounter (n : N) (l : WebpackResourceLoader) :=
  {| _parentCompilation := _parentCompilation l;
     _fileDependencies := _fileDependencies l;
     _reverseDependencies := _reverseDependencies l;
     cache := cache l;
     modifiedResources := modifiedResources l;
     outputPathCounter := n;
     childRuns := childRuns l |}.

Definition set_childRuns (t : list ChildRequest) (l : WebpackResourceLoader) :=
  {| _parentCompilation := _parentCompilation l;
     _fileDependencies := _fileDependencies l;
     _reverseDependencies := _reverseDependencies l;
     cache := cache l;
     modifiedResources := modifiedResources l;
     outputPathCounter := outputPathCounter l;
     childRuns := t |}.

(** ** The monad of the [async] methods

    A method takes the loader's state and gives a settled promise and the
    state it leaves.  Calls are awaited one after the other. *)

Definition Async (A : Type) : Type :=
  WebpackResourceLoader -> Completion LoaderError A * WebpackResourceLoader.

Definition resolve {A} (a : A) : Async A := fun l => (Normal a, l).

Definition reject {A} (e : LoaderError) : Async A := fun l => (Abrupt e, l).

Definition await {A B} (m : Async A) (k : A -> Async B) : Async B :=
  fun l =>
    match m l with
    | (Normal a, l') => k a l'
    | (Abrupt e, l') => (Abrupt e, l')
    end.

Definition read {A} (f : WebpackResourceLoader -> A) : Async A :=
  fun l => (Normal (f l), l).

Definition write (f : WebpackResourceLoader -> WebpackResourceLoader) : Async unit :=
  fun l => (Normal tt, f l).

Notation "'let!' x ':=' m 'in' k" := (await m (fun x => k))
  (at level 10, x name, m at level 100, k at level 200, only parsing).

(** ** The loader's methods *)

Module Loader.
Section Methods.

(** [normalizePath] of [./ivy/paths], a pure function on path strings. *)
Variable normalizePath : jsstring -> jsstring.

(** webpack: the outcome of the [n]-th child compiler run ([n] counts the
    runs before it), for the request it was set up with.  The index lets
    two runs of the same request differ, as they do when files changed. *)
Variable runAsChild : nat -> ChildRequest -> ChildOutcome.

(** Node: [vm.runInNewContext(source, context, { filename })], observed
    through what it leaves in [context.resource]. *)
Variable runInNewContext : jsstring -> jsstring -> VmOutcome.

(** *** Synchronous methods *)

Definition getModifiedResourceFiles (l : WebpackResourceLoader) : gset jsstring :=
  modifiedResources l.

(** [this._fileDependencies.get(filePath) || []] *)
Definition getResourceDependencies (l : WebpackResourceLoader) (filePath : jsstring)
  : gset jsstring :=
  default ∅ (_fileDependencies l !! filePath).

(** [this._reverseDependencies.get(file) || []] *)
Definition getAffectedResources (l : WebpackResourceLoader) (file : jsstring)
  : gset jsstring :=
  default ∅ (_reverseDependencies l !! file).

Definition setAffectedResources (file : jsstring) (resources : list jsstring)
    (l : WebpackResourceLoader) : WebpackResourceLoader :=
  set_reverseDependencies (<[file := list_to_set resources]> (_reverseDependencies l)) l.

(** Body of the inner loop of [update]. *)
Definition evict (affectedResource : jsstring) (l : WebpackResourceLoader)
  : WebpackResourceLoader :=
  set_modifiedResources ({[affectedResource]} ∪ modifiedResources l)
    (set_cache (delete (normalizePath affectedResource) (cache l)) l).

Definition evictAffected (l : WebpackResourceLoader) (changedFile : jsstring)
  : WebpackResourceLoader :=
  foldl (fun l affectedResource => evict affectedResource l) l
        (elements (getAffectedResources l changedFile)).

(** [update(parentCompilation, changedFiles?)]; an absent [changedFiles]
    is [None]. *)
Definition update (parentCompilation : Compilation)
    (changedFiles : option (list jsstring)) (l : WebpackResourceLoader)
  : WebpackResourceLoader :=
  let l := set_parentCompilation (Some parentCompilation) l in
  let l := set_modifiedResources ∅ l in
  match changedFiles with
  | Some files => foldl evictAffected l files
  | None => set_cache ∅ l
  end.

(** *** Evaluation of the emitted asset *)

(** [typeof v === 'string'] *)
Definition asString (v : JsValue) : option jsstring :=
  match v with
  | JsString s => Some s
  | _ => None
  end.

(** [v?.default] *)
Definition optionalDefault (v : JsValue) : JsValue :=
  match v with
  | JsObject d => d
  | _ => JsUndefined
  end.

(** [_evaluate(filename, source)]: [Normal None] is the [null] result. *)
Definition _evaluate (filename source : jsstring)
  : Completion CompilationError (option jsstring) :=
  match runInNewContext source filename with
  | VmThrew => Normal None
  | VmDone resource =>
      match asString resource with
      | Some s => Normal (Some s)
      | None =>
          match asString (optionalDefault resource) with
          | Some s => Normal (Some s)
          | None => Abrupt (DidNotReturnString filename)
          end
      end
  end.

(** *** Hooks tapped on the child compiler *)

(** The [additionalAssets] hook (lines 210-228). *)
Definition additionalAssets (outputFilePath : jsstring) (c : ChildCompilation)
  : ChildCompilation :=
  match assets c !! outputFilePath with
  | None => c
  | Some source =>
      match _evaluate outputFilePath source with
      | Normal (Some output) =>
          {| assets := <[outputFilePath := output]> (assets c);
             errors := errors c;
             fileDependencies := fileDependencies c |}
      | Normal None => c
      | Abrupt error =>
          {| assets := assets c;
             errors := errors c ++ [error];
             fileDependencies := fileDependencies c |}
      end
  end.

(** The [processAssets] tap at stage 5000 (webpack 5) and the
    [afterCompile] tap (webpack 4) have the same body (lines 240-244 and
    250-254): they read [finalContent] and [finalMap] and delete both
    assets.  Either runs after [additionalAssets]. *)
Definition captureOutput (outputFilePath : jsstring) (c : ChildCompilation)
  : option jsstring * option jsstring * ChildCompilation :=
  let mapPath := outputFilePath ++ js ".map" in
  (assets c !! outputFilePath,
   assets c !! mapPath,
   {| assets := delete mapPath (delete outputFilePath (assets c));
      errors := errors c;
      fileDependencies := fileDependencies c |}).

(** *** Dependency recording (lines 270-282) *)

(** Body of the loop over [childCompilation.fileDependencies]. *)
Definition addReverseDependency (filePath : jsstring)
    (l : WebpackResourceLoader) (file : jsstring) : WebpackResourceLoader :=
  let resolvedFile := normalizePath file in
  match _reverseDependencies l !! resolvedFile with
  | Some entry =>
      set_reverseDependencies
        (<[resolvedFile := entry ∪ {[filePath]}]> (_reverseDependencies l)) l
  | None =>
      set_reverseDependencies
        (<[resolvedFile := {[filePath]}]> (_reverseDependencies l)) l
  end.

(** "Save the dependencies for this resource." *)
Definition saveDependencies (filePath : jsstring) (files : list jsstring)
    (l : WebpackResourceLoader) : WebpackResourceLoader :=
  foldl (addReverseDependency filePath)
        (set_fileDependencies
           (<[filePath := list_to_set files]> (_fileDependencies l)) l)
        files.

(** *** The nested compilation driver *)

(** [this.outputPathCounter++] *)
Definition nextOutputPathCounter : Async N :=
  fun l => (Normal (outputPathCounter l),
            set_outputPathCounter (outputPathCounter l + 1) l).

(** [`angular-resource-output-${n}.css`] *)
Definition syntheticOutputPath (n : N) : jsstring :=
  js "angular-resource-output-" ++ decimal n ++ js ".css".

(** [filePath || `angular-resource-output-${this.outputPathCounter++}.css`] *)
Definition chooseOutputFilePath (filePath : option jsstring) : Async jsstring :=
  match truthy filePath with
  | Some p => resolve p
  | None =>
      let! n := nextOutputPathCounter in
      resolve (syntheticOutputPath n)
  end.

(** The child compiler [_compile] creates (lines 169-208). *)
Definition childRequest (parent : Compilation) (outputFilePath : jsstring)
    (filePath data mimeType : option jsstring) : ChildRequest :=
  {| req_context := compiler_context parent;
     req_filename := outputFilePath;
     req_entry := match truthy data with
                  | Some _ => Some (js "angular-resource://")
                  | None => filePath
                  end;
     req_data := data;
     req_path := match data with Some _ => truthy filePath | None => None end;
     req_mimetype := match data with Some _ => truthy mimeType | None => None end |}.

(** [childCompiler.runAsChild(callback)]: one more run on the trace. *)
Definition runChild (request : ChildRequest) : Async ChildOutcome :=
  fun l => (Normal (runAsChild (length (childRuns l)) request),
            set_childRuns (childRuns l ++ [request]) l).

Definition _compile (filePath data mimeType : option jsstring)
  : Async CompilationOutput.t :=
  let! parentCompilation := read _parentCompilation in
  match parentCompilation with
  | None => reject MissingParentCompilation
  | Some parent =>
      let! _ :=
        match filePath with
        | Some p =>
            if matchesScriptExtension p then reject (UnsupportedResourceType p)
            else resolve tt
        | None => resolve tt
        end in
      let! outputFilePath := chooseOutputFilePath filePath in
      let! outcome := runChild (childRequest parent outputFilePath filePath data mimeType) in
      match outcome with
      | ChildError error => reject (ChildCompilerError error)
      | ChildNoCompilation => reject UnknownChildCompilationError
      | ChildDone built =>
          let '(finalContent, finalMap, childCompilation) :=
            captureOutput outputFilePath (additionalAssets outputFilePath built) in
          let! _ :=
            match truthy filePath with
            | Some p => write (saveDependencies p (fileDependencies childCompilation))
            | None => resolve tt
            end in
          resolve {| CompilationOutput.content := default [] finalContent;
                     CompilationOutput.map := finalMap;
                     CompilationOutput.success :=
                       Nat.eqb (length (errors childCompilation)) 0 |}
      end
  end.

(** What [_compile] resolves with once the child compilation [built] has
    completed: the hooks in their order, then lines 284-288. *)
Definition compilationOutput (outputFilePath : jsstring) (built : ChildCompilation)
  : CompilationOutput.t :=
  let '(finalContent, finalMap, childCompilation) :=
    captureOutput outputFilePath (additionalAssets outputFilePath built) in
  {| CompilationOutput.content := default [] finalContent;
     CompilationOutput.map := finalMap;
     CompilationOutput.success := Nat.eqb (length (errors childCompilation)) 0 |}.

(** *** The public [async] methods *)

Definition get (filePath : jsstring) : Async jsstring :=
  let normalizedFile := normalizePath filePath in
  let! cached := read (fun l => cache l !! normalizedFile) in
  match cached with
  | Some compilationResult => resolve (CompilationOutput.content compilationResult)
  | None =>
      let! compilationResult := _compile (Some filePath) None None in
      let! _ :=
        if CompilationOutput.success compilationResult
        then write (fun l => set_cache (<[normalizedFile := compilationResult]> (cache l)) l)
        else resolve tt in
      resolve (CompilationOutput.content compilationResult)
  end.

Definition process (data mimeType : jsstring) : Async jsstring :=
  if Nat.eqb (length (trim data)) 0 then resolve []
  else
    let! compilationResult := _compile None (Some data) (Some mimeType) in
    resolve (CompilationOutput.content compilationResult).

(** *** Sessions

    The calls a parent build makes on one loader, each awaited before the
    next ([setAffectedResources], the out-of-band overwrite, is left out). *)

Inductive Call :=
| CallUpdate (parentCompilation : Compilation) (changedFiles : option (list jsstring))
| CallGet (filePath : jsstring)
| CallProcess (data mimeType : jsstring).

Definition perform (l : WebpackResourceLoader) (c : Call) : WebpackResourceLoader :=
  match c with
  | CallUpdate parentCompilation changedFiles => update parentCompilation changedFiles l
  | CallGet filePath => snd (get filePath l)
  | CallProcess data mimeType => snd (process data mimeType l)
  end.

Definition session (calls : list Call) : WebpackResourceLoader :=
  foldl perform newLoader calls.

(** Every forward edge has its reverse edge, under the normalized name of
    the file. *)
Definition forwardInReverse (l : WebpackResourceLoader) : Prop :=
  ∀ resource file,
    file ∈ getResourceDependencies l resource →
    resource ∈ getAffectedResources l (normalizePath file).

End Methods.
End Loader.

Import Loader.

(** The shapes [_evaluate] accepts, in the words of the specification: a
    string, or an object with a string-valued [default]. *)
Definition validExport (v : JsValue) : Prop :=
  (∃ s, v = JsString s) ∨ (∃ s, v = JsObject (JsString s)).

(** A string of white space only (the empty string included). *)
Definition blank (s : jsstring) : Prop :=
  Forall (λ c, isWhiteSpace c = true) s.

(** A path with a JavaScript or TypeScript extension. *)
Definition scriptPath (p : jsstring) : Prop :=
  ∃ stem, p = stem ++ js ".js" ∨ p = stem ++ js ".ts".

(** ** A concrete build session

    Instances of the parameters, on which the general statements are run. *)

Module Scenario.

(** Modelled from the spec: [./ivy/paths] is not among the sources.  The
    normalizer "must produce identical output for paths that refer to the
    same file across platform path-separator conventions": backslashes
    become slashes. *)
Definition normalizePath (path : jsstring) : jsstring :=
  List.map (λ c, if c =? 92 then 47 else c) path.

Definition app : Compilation := {| compiler_context := js "/app" |}.

Definition button : jsstring := js "src/button.scss".
Definition vars : jsstring := js "src/_vars.scss".
Definition theme : jsstring := js "src/_theme.scss".
Definition mixins : jsstring := js "src/_mixins.scss".
Definition broken : jsstring := js "src/broken.scss".
Definition odd : jsstring := js "src/odd.html".

(** A child compiler: [button] first depends on [vars], later on [theme]
    instead; [broken] does not build; [odd] emits a script that leaves a
    number; inline data is emitted as it is. *)
Definition runAsChild (n : nat) (request : ChildRequest) : ChildOutcome :=
  if bool_decide (req_filename request = button) then
    ChildDone {| assets := {[ button := js "resource = '.b{}'" ]};
                 errors := [];
                 fileDependencies :=
                   if Nat.eqb n 0 then [vars; button] else [button; theme] |}
  else if bool_decide (req_filename request = broken) then
    ChildDone {| assets := ∅;
                 errors := [BuildError (js "Undefined variable.")];
                 fileDependencies := [broken; vars] |}
  else if bool_decide (req_filename request = odd) then
    ChildDone {| assets := {[ odd := js "resource = 42" ]};
                 errors := [];
                 fileDependencies := [odd] |}
  else
    ChildDone {| assets := {[ req_filename request := default [] (req_data request) ]};
                 errors := [];
                 fileDependencies := [] |}.

(** A sandbox: one script leaves a number, one throws, any other leaves a
    module object whose [default] is the script's text. *)
Definition runInNewContext (source filename : jsstring) : VmOutcome :=
  if bool_decide (source = js "resource = 42") then VmDone (JsNumber 42)
  else if bool_decide (source = js "throw 0") then VmThrew
  else VmDone (JsObject (JsString source)).

Definition update := update normalizePath.
Definition _compile := _compile normalizePath runAsChild runInNewContext.
Definition get := get normalizePath runAsChild runInNewContext.
Definition process := process normalizePath runAsChild runInNewContext.
Definition saveDependencies := saveDependencies normalizePath.

(** The loader after the first [update] of a build. *)
Definition started : WebpackResourceLoader := update app None newLoader.

(** What the child compilations of [button], [broken] and [odd] give. *)
Definition buttonOutput : CompilationOutput.t :=
  {| CompilationOutput.content := js "resource = '.b{}'";
     CompilationOutput.map := None;
     CompilationOutput.success := true |}.

Definition brokenOutput : CompilationOutput.t :=
  {| CompilationOutput.content := [];
     CompilationOutput.map := None;
     CompilationOutput.success := false |}.

Definition oddOutput : CompilationOutput.t :=
  {| CompilationOutput.content := js "resource = 42";
     CompilationOutput.map := None;
     CompilationOutput.success := false |}.

Definition component : jsstring := js "src/app.component.ts".
Definition inline : jsstring := js "src/inline.css".

(** [button] is compiled, [vars] changes, [button] is compiled again and
    now depends on [theme] instead of [vars]. *)
Definition rebuilt : WebpackResourceLoader :=
  snd (get button (update app (Some [vars]) (snd (get button started)))).

End Scenario.

(** ** Child compilers that fail, or emit nothing *)

Module Faults.

(** webpack hands the callback an error, whatever the request. *)
Definition failingChild (n : nat) (request : ChildRequest) : ChildOutcome :=
  ChildError (js "ENOMEM").

(** The child compilation completes, but emits no asset. *)
Definition silentChild (n : nat) (request : ChildRequest) : ChildOutcome :=
  ChildDone {| assets := ∅;
               errors := [];
               fileDependencies := [req_filename request] |}.

End Faults.

(** ** What a session keeps

    Statements about the states a session reaches. *)

(** A resource the loader has compiled for a file: it has a name, no script
    extension, and an entry in the forward map. *)
Definition compiledResource (l : WebpackResourceLoader) (resource : jsstring) : Prop :=
  resource ≠ [] ∧
  matchesScriptExtension resource = false ∧
  is_Some (_fileDependencies l !! resource).


(** * Package manager detection

    The first document of [src/packages/angular/cli/utilities/package-manager.ts]
    (lines 1-83).  The enum [PackageManager] of [../lib/config/schema] and
    [getConfiguredPackageManager] of [./config] are not among the sources,
    and neither are Node's [execSync], [existsSync] and [join]: all are
    parameters. *)

(** [/^(\d+)\./] *)
Definition isDigit (c : N) : bool := (48 <=? c) && (c <=? 57).

Fixpoint spanDigits (s : jsstring) : jsstring * jsstring :=
  match s with
  | c :: rest =>
      if isDigit c
      then let '(digits, tail) := spanDigits rest in (c :: digits, tail)
      else ([], s)
  | [] => ([], [])
  end.

(** [version.match(/^(\d+)\./)?.[1]]: the group takes the longest run of
    digits at the start; a shorter run would be followed by a digit, not by
    the dot, so backtracking finds no other match. *)
Definition majorGroup (version : jsstring) : option jsstring :=
  match spanDigits version with
  | ((_ :: _) as digits, c :: _) => if c =? 46 then Some digits else None
  | _ => None
  end.

(** [Number(digits)] of a string of decimal digits.  (A double holds every
    integer below 2^53, and a longer run of digits is never read as 6.) *)
Definition numberOfDigits (digits : jsstring) : N :=
  foldl (λ value c, 10 * value + (c - 48)) 0 digits.

(** [Number(version.match(/^(\d+)\./)?.[1]) === 6]; without a match the
    number is [NaN]. *)
Definition majorIsSix (version : jsstring) : bool :=
  match majorGroup version with
  | Some digits => numberOfDigits digits =? 6
  | None => false
  end.

(** What the text written by [console.error] is. *)
Definition incompatibleNpmMessage (version : jsstring) : jsstring :=
  js "npm version " ++ version ++ js " detected." ++ [10] ++
  js "The Angular CLI currently requires npm version 6." ++ [10; 10] ++
  js "Please install a compatible version to proceed (`npm install --global npm@6`)." ++ [10].

(** How [ensureCompatibleNpm] ends: it returns, or the process exits. *)
Inductive Ending :=
| Returns
| Exits (code : Z) (stderr : jsstring).

Module PackageManagers.
Section Detection.

Variable PackageManager : Type.
Context `{EqDecision PackageManager}.
Variables Npm Yarn : PackageManager.

(** The awaited result of [getConfiguredPackageManager()]; [None] is a
    falsy result. *)
Variable configured : option PackageManager.

(** [execSync(command, ...)]: the standard output, or [None] when it
    throws. *)
Variable execSync : jsstring -> option jsstring.
Variable existsSync : jsstring -> bool.
Variable join : jsstring -> jsstring -> jsstring.

Definition supports (name : jsstring) : bool :=
  match execSync (name ++ js " --version") with
  | Some _ => true
  | None => false
  end.

Definition supportsYarn : bool := supports (js "yarn").

Definition supportsNpm : bool := supports (js "npm").

Definition getPackageManager (root : jsstring) : PackageManager :=
  match configured with
  | Some packageManager => packageManager
  | None =>
      let hasYarn := supportsYarn in
      let hasYarnLock := existsSync (join root (js "yarn.lock")) in
      let hasNpm := supportsNpm in
      let hasNpmLock := existsSync (join root (js "package-lock.json")) in
      let packageManager :=
        if hasYarn && hasYarnLock && negb hasNpmLock then Some Yarn
        else if hasNpm && hasNpmLock && negb hasYarnLock then Some Npm
        else if hasYarn && negb hasNpm then Some Yarn
        else if hasNpm && negb hasYarn then Some Npm
        else None in
      default Npm packageManager
  end.

Definition ensureCompatibleNpm (root : jsstring) : Ending :=
  if decide (getPackageManager root = Npm) then
    match execSync (js "npm --version") with
    | Some stdout =>
        let version := trim stdout in
        if majorIsSix version then Returns
        else Exits 3 (incompatibleNpmMessage version)
    | None => Returns
    end
  else Returns.

End Detection.
End PackageManagers.

(** A machine to run the detection on: the four package managers of the
    CLI's configuration schema, yarn 1.22 and npm 7 installed, a project
    with a [yarn.lock]. *)
Module Machine.

Inductive Manager := npm | cnpm | yarn | pnpm.

#[global] Instance Manager_eq_dec : EqDecision Manager.
Proof. solve_decision. Defined.

Definition execSync (command : jsstring) : option jsstring :=
  if bool_decide (command = js "yarn --version") then Some (js "1.22.10" ++ [10])
  else if bool_decide (command = js "npm --version") then Some (js "7.5.1" ++ [10])
  else None.

Definition join (directory name : jsstring) : jsstring :=
  directory ++ js "/" ++ name.

Definition existsSync (path : jsstring) : bool :=
  bool_decide (path = js "/app/yarn.lock").

(** The same machine with another npm. *)
Definition withNpm (stdout : jsstring) (command : jsstring) : option jsstring :=
  if bool_decide (command = js "npm --version") then Some stdout
  else execSync command.

End Machine.

(** * Options handed to Karma

    From [execute] of the Karma builder ([src/unnamed/part_001], lines
    83-97): how the [browsers] and [reporters] options of the builder
    become Karma options.  The rest of [execute] drives webpack, rxjs and
    the Karma server and is not modelled. *)

(** [s.split(',')], for a separator of one code unit: the pieces between
    the separators, at least one. *)
Fixpoint split (separator : N) (s : jsstring) : list jsstring :=
  match s with
  | [] => [[]]
  | c :: rest =>
      if c =? separator then [] :: split separator rest
      else
        match split separator rest with
        | piece :: pieces => (c :: piece) :: pieces
        | [] => [[c]]
        end
  end.

(** [pieces.join(',')] *)
Fixpoint join (separator : N) (pieces : list jsstring) : jsstring :=
  match pieces with
  | [] => []
  | [piece] => piece
  | piece :: rest => piece ++ separator :: join separator rest
  end.

(** [if (options.browsers) karmaOptions.browsers = options.browsers.split(',')]:
    [None] when the key is not set. *)
Definition karmaBrowsers (browsers : option jsstring) : option (list jsstring) :=
  match truthy browsers with
  | Some given => Some (split 44 given)
  | None => None
  end.

(** Lines 88-97: [karmaOptions.reporters], [None] when the key is not set.
    [!!x] holds of a string that is not empty. *)
Definition karmaReporters (reporters : option (list jsstring))
  : option (list jsstring) :=
  match reporters with
  | Some given =>
      let reporters :=
        filter (λ x, x ≠ [])
               (foldl (λ acc curr, acc ++ split 44 curr) [] given) in
      if Nat.ltb 0 (length reporters) then Some reporters else None
  | None => None
  end.

(** * Properties *)

(** ** Strings *)

Lemma trimStart_nil_iff s : trimStart s = [] ↔ blank s.
Proof.
  unfold blank. induction s as [|c s IH]; simpl.
  - split; [constructor | reflexivity].
  - destruct (isWhiteSpace c) eqn:Hc.
    + rewrite IH. split.
      * intros H. by constructor.
      * by inversion 1.
    + split; [discriminate |].
      inversion 1; congruence.
Qed.

Lemma trim_length_zero_iff s : length (trim s) = 0%nat ↔ blank s.
Proof.
  unfold trim, trimEnd. rewrite length_rev.
  rewrite <- trimStart_nil_iff. split.
  - intros H. destruct (trimStart s) as [|c t] eqn:E; [done |].
    exfalso. apply nil_length_inv in H.
    apply trimStart_nil_iff in H. unfold blank in H.
    apply Forall_rev in H. rewrite rev_involutive in H.
    change (blank (c :: t)) in H. apply trimStart_nil_iff in H.
    assert (Hidem : trimStart (c :: t) = c :: t).
    { rewrite <- E. clear. induction s as [|a s IH]; simpl; [done |].
      destruct (isWhiteSpace a) eqn:Ha; [done |]. simpl. by rewrite Ha. }
    congruence.
  - intros ->. reflexivity.
Qed.

Lemma blank_trim_test s : Nat.eqb (length (trim s)) 0 = true ↔ blank s.
Proof. rewrite Nat.eqb_eq. apply trim_length_zero_iff. Qed.

Lemma truthy_Some_inv filePath p :
  truthy filePath = Some p → filePath = Some p ∧ p ≠ [].
Proof. destruct filePath as [[|c q]|]; intros; by simplify_eq/=. Qed.

Lemma scriptSuffixHere_iff s :
  scriptSuffixHere s = true ↔ s = js ".js" ∨ s = js ".ts".
Proof.
  split.
  - destruct s as [|c0 [|c1 [|c2 [|c3 s]]]]; simpl; try discriminate.
    intros H. apply andb_prop in H as [H H2]. apply andb_prop in H as [H0 H1].
    apply N.eqb_eq in H0, H2. subst c0 c2.
    apply orb_prop in H1 as [H1|H1]; apply N.eqb_eq in H1; subst c1; auto.
  - by intros [-> | ->].
Qed.

Lemma matchesScriptExtension_iff p :
  matchesScriptExtension p = true ↔ scriptPath p.
Proof.
  unfold scriptPath. induction p as [|c p IH].
  - simpl. split; [discriminate |].
    intros [stem [H|H]]; by destruct stem as [|? [|? [|? ?]]].
  - cbn [matchesScriptExtension]. rewrite orb_true_iff, IH, scriptSuffixHere_iff.
    split.
    + intros [H | [stem H]].
      * exists []. tauto.
      * exists (c :: stem). simpl. destruct H as [-> | ->]; auto.
    + intros [[|a stem] H].
      * left. simpl in H. tauto.
      * right. exists stem. simpl in H.
        destruct H as [H|H]; injection H as -> ->; auto.
Qed.

Section Graph.

Variable normalizePath : jsstring -> jsstring.

Local Abbreviation evict := (evict normalizePath).
Local Abbreviation evictAffected := (evictAffected normalizePath).
Local Abbreviation update := (update normalizePath).
Local Abbreviation addReverseDependency := (addReverseDependency normalizePath).
Local Abbreviation saveDependencies := (saveDependencies normalizePath).
Local Abbreviation forwardInReverse := (forwardInReverse normalizePath).

(** ** The dependency graph *)

Lemma addReverseDependency_affected p l file k r :
  r ∈ getAffectedResources (addReverseDependency p l file) k ↔
  r ∈ getAffectedResources l k ∨ (r = p ∧ normalizePath file = k).
Proof.
  unfold Loader.addReverseDependency, getAffectedResources.
  destruct (_reverseDependencies l !! normalizePath file) as [entry|] eqn:E;
    simpl; destruct (decide (normalizePath file = k)) as [<-|Hne].
  - rewrite lookup_insert_eq, E. simpl. set_solver.
  - rewrite lookup_insert_ne by done. set_solver.
  - rewrite lookup_insert_eq, E. simpl. set_solver.
  - rewrite lookup_insert_ne by done. set_solver.
Qed.

Lemma addReverseDependency_frame p l file :
  let l' := addReverseDependency p l file in
  _parentCompilation l' = _parentCompilation l ∧
  _fileDependencies l' = _fileDependencies l ∧
  cache l' = cache l ∧
  modifiedResources l' = modifiedResources l ∧
  outputPathCounter l' = outputPathCounter l ∧
  childRuns l' = childRuns l.
Proof.
  unfold Loader.addReverseDependency.
  by destruct (_reverseDependencies l !! normalizePath file).
Qed.

Lemma foldl_addReverseDependency_affected p files l k r :
  r ∈ getAffectedResources (foldl (addReverseDependency p) l files) k ↔
  r ∈ getAffectedResources l k ∨ (r = p ∧ ∃ f, f ∈ files ∧ normalizePath f = k).
Proof.
  revert l. induction files as [|file files IH]; intros l; simpl.
  - set_solver.
  - rewrite IH, addReverseDependency_affected. set_solver.
Qed.

Lemma foldl_addReverseDependency_frame p files l :
  let l' := foldl (addReverseDependency p) l files in
  _parentCompilation l' = _parentCompilation l ∧
  _fileDependencies l' = _fileDependencies l ∧
  cache l' = cache l ∧
  modifiedResources l' = modifiedResources l ∧
  outputPathCounter l' = outputPathCounter l ∧
  childRuns l' = childRuns l.
Proof.
  revert l. induction files as [|file files IH]; intros l; simpl; [done |].
  destruct (IH (addReverseDependency p l file)) as (-> & -> & -> & -> & -> & ->).
  apply addReverseDependency_frame.
Qed.

Lemma saveDependencies_affected p files l k r :
  r ∈ getAffectedResources (saveDependencies p files l) k ↔
  r ∈ getAffectedResources l k ∨ (r = p ∧ ∃ f, f ∈ files ∧ normalizePath f = k).
Proof. unfold Loader.saveDependencies. by rewrite foldl_addReverseDependency_affected. Qed.

Lemma saveDependencies_dependencies p files l q :
  getResourceDependencies (saveDependencies p files l) q =
  if decide (p = q) then list_to_set files else getResourceDependencies l q.
Proof.
  unfold Loader.saveDependencies, getResourceDependencies.
  destruct (foldl_addReverseDependency_frame p files
    (set_fileDependencies (<[p:=list_to_set files]> (_fileDependencies l)) l))
    as (_ & -> & _).
  simpl. case_decide as Hpq.
  - subst q. by rewrite lookup_insert_eq.
  - by rewrite lookup_insert_ne.
Qed.

Lemma saveDependencies_frame p files l :
  let l' := saveDependencies p files l in
  _parentCompilation l' = _parentCompilation l ∧
  cache l' = cache l ∧
  modifiedResources l' = modifiedResources l ∧
  outputPathCounter l' = outputPathCounter l ∧
  childRuns l' = childRuns l.
Proof.
  unfold Loader.saveDependencies.
  destruct (foldl_addReverseDependency_frame p files
    (set_fileDependencies (<[p:=list_to_set files]> (_fileDependencies l)) l))
    as (-> & _ & -> & -> & -> & ->).
  done.
Qed.

Lemma saveDependencies_forwardInReverse p files l :
  forwardInReverse l → forwardInReverse (saveDependencies p files l).
Proof.
  intros Hinv q file. rewrite saveDependencies_dependencies, saveDependencies_affected.
  case_decide as Hpq.
  - subst q. rewrite elem_of_list_to_set. eauto.
  - intros Hin. left. by apply Hinv.
Qed.

(** ** Invalidation *)

Lemma foldl_evict rs l :
  let l' := foldl (λ l r, evict r l) l rs in
  _parentCompilation l' = _parentCompilation l ∧
  _fileDependencies l' = _fileDependencies l ∧
  _reverseDependencies l' = _reverseDependencies l ∧
  outputPathCounter l' = outputPathCounter l ∧
  childRuns l' = childRuns l ∧
  modifiedResources l' = list_to_set rs ∪ modifiedResources l ∧
  ∀ k v, cache l' !! k = Some v ↔
         cache l !! k = Some v ∧ ∀ r, r ∈ rs → normalizePath r ≠ k.
Proof.
  revert l. induction rs as [|r rs IH]; intros l; simpl.
  - split_and!; try done; [set_solver |].
    intros k v. split; [| tauto]. intros H. split; [done |]. by intros r ?%elem_of_nil.
  - destruct (IH (evict r l)) as (-> & -> & -> & -> & -> & -> & Hc).
    simpl. split_and!; try done; [set_solver |].
    intros k v. rewrite Hc. simpl. rewrite lookup_delete_Some. split.
    + intros [[Hne Hk] Hrs]. split; [done |].
      intros r' [->|Hin]%elem_of_cons; [done | by apply Hrs].
    + intros [Hk Hrs]. split_and!; [| done |].
      * apply Hrs. left.
      * intros r' Hin. apply Hrs. by right.
Qed.

Lemma evictAffected_spec l changedFile :
  let l' := evictAffected l changedFile in
  _parentCompilation l' = _parentCompilation l ∧
  _fileDependencies l' = _fileDependencies l ∧
  _reverseDependencies l' = _reverseDependencies l ∧
  outputPathCounter l' = outputPathCounter l ∧
  childRuns l' = childRuns l ∧
  modifiedResources l' = getAffectedResources l changedFile ∪ modifiedResources l ∧
  ∀ k v, cache l' !! k = Some v ↔
         cache l !! k = Some v ∧
         ∀ r, r ∈ getAffectedResources l changedFile → normalizePath r ≠ k.
Proof.
  unfold Loader.evictAffected.
  destruct (foldl_evict (elements (getAffectedResources l changedFile)) l)
    as (-> & -> & -> & -> & -> & -> & Hc).
  rewrite list_to_set_elements_L.
  split_and!; try done.
  intros k v. rewrite Hc. by setoid_rewrite elem_of_elements.
Qed.

Lemma foldl_evictAffected files l :
  let l' := foldl evictAffected l files in
  _parentCompilation l' = _parentCompilation l ∧
  _fileDependencies l' = _fileDependencies l ∧
  _reverseDependencies l' = _reverseDependencies l ∧
  outputPathCounter l' = outputPathCounter l ∧
  childRuns l' = childRuns l ∧
  (∀ r, r ∈ modifiedResources l' ↔
        r ∈ modifiedResources l ∨
        ∃ f, f ∈ files ∧ r ∈ getAffectedResources l f) ∧
  ∀ k v, cache l' !! k = Some v ↔
         cache l !! k = Some v ∧
         ∀ f r, f ∈ files → r ∈ getAffectedResources l f → normalizePath r ≠ k.
Proof.
  revert l. induction files as [|file files IH]; intros l; simpl.
  - split_and!; try done; [set_solver |].
    intros k v. split; [| tauto]. intros H. split; [done |]. by intros f r ?%elem_of_nil.
  - destruct (IH (evictAffected l file)) as (-> & -> & Hrev & -> & -> & Hm & Hc).
    destruct (evictAffected_spec l file) as (-> & -> & Hrev' & -> & -> & Hm' & Hc').
    assert (Haff : ∀ f, getAffectedResources (evictAffected l file) f
                        = getAffectedResources l f).
    { intros f. unfold getAffectedResources. by rewrite Hrev'. }
    rewrite Hrev, Hrev'. split_and!; try done.
    + intros r. rewrite Hm, Hm'. setoid_rewrite Haff. set_solver.
    + intros k v. rewrite Hc, Hc'. setoid_rewrite Haff. split.
      * intros [[Hk Hfile] Hrs]. split; [done |].
        intros f r [->|Hin]%elem_of_cons Hr; [by apply Hfile | by apply (Hrs f r)].
      * intros [Hk Hrs]. split_and!; [done | |].
        -- intros r Hr. apply (Hrs file r); [left | done].
        -- intros f r Hin Hr. apply (Hrs f r); [by right | done].
Qed.

(** C2: [update] with changed files first clears the modified set; then
    every dependent (by the reverse map) of every changed file is evicted
    from the cache, under its normalized name, and added to the modified
    set.  So [getModifiedResourceFiles] is exactly the set of dependents
    of the changed files, a cache entry survives exactly when it is the
    entry of none of them, and changed files without dependents evict
    nothing. *)
Theorem update_incremental parentCompilation changedFiles l :
  let l' := update parentCompilation (Some changedFiles) l in
  (∀ r, r ∈ getModifiedResourceFiles l' ↔
        ∃ f, f ∈ changedFiles ∧ r ∈ getAffectedResources l f) ∧
  (∀ k v, cache l' !! k = Some v ↔
          cache l !! k = Some v ∧
          ∀ r, r ∈ getModifiedResourceFiles l' → normalizePath r ≠ k) ∧
  ((∀ f, f ∈ changedFiles → getAffectedResources l f = ∅) →
   cache l' = cache l ∧ getModifiedResourceFiles l' = ∅).
Proof.
  unfold Loader.update, getModifiedResourceFiles.
  set (l0 := set_modifiedResources ∅ (set_parentCompilation (Some parentCompilation) l)).
  destruct (foldl_evictAffected changedFiles l0) as (_ & _ & _ & _ & _ & Hm & Hc).
  change (getAffectedResources l0) with (getAffectedResources l) in *.
  change (cache l0) with (cache l) in *.
  change (modifiedResources l0) with (∅ : gset jsstring) in *.
  assert (Hmod : ∀ r, r ∈ modifiedResources (foldl evictAffected l0 changedFiles) ↔
                      ∃ f, f ∈ changedFiles ∧ r ∈ getAffectedResources l f).
  { intros r. rewrite Hm. set_solver. }
  split_and!.
  - exact Hmod.
  - intros k v. rewrite Hc. setoid_rewrite Hmod. split.
    + intros [Hk Hrs]. split; [done |]. intros r (f & Hf & Hr). by apply (Hrs f r).
    + intros [Hk Hrs]. split; [done |]. intros f r Hf Hr. apply Hrs. eauto.
  - intros Hnone. split.
    + apply map_eq. intros k. apply option_eq. intros v. rewrite Hc.
      split; [tauto |]. intros Hk. split; [done |].
      intros f r Hf Hr. rewrite (Hnone f Hf) in Hr. set_solver.
    + apply set_eq. intros r. rewrite Hmod. split; [| set_solver].
      intros (f & Hf & Hr). rewrite (Hnone f Hf) in Hr. set_solver.
Qed.

(** C5: [update] without changed files empties the whole cache and the
    modified set, and leaves both dependency maps as they were. *)
Theorem update_full_rebuild parentCompilation l :
  let l' := update parentCompilation None l in
  cache l' = ∅ ∧
  getModifiedResourceFiles l' = ∅ ∧
  _fileDependencies l' = _fileDependencies l ∧
  _reverseDependencies l' = _reverseDependencies l ∧
  (∀ resource, getResourceDependencies l' resource = getResourceDependencies l resource) ∧
  (∀ file, getAffectedResources l' file = getAffectedResources l file).
Proof. by split_and!. Qed.

Lemma forwardInReverse_graph l l' :
  _fileDependencies l' = _fileDependencies l →
  _reverseDependencies l' = _reverseDependencies l →
  forwardInReverse l → forwardInReverse l'.
Proof.
  intros Hf Hr Hinv resource file.
  unfold getResourceDependencies, getAffectedResources.
  rewrite Hf, Hr. apply Hinv.
Qed.

Lemma update_graph parentCompilation changedFiles l :
  _fileDependencies (update parentCompilation changedFiles l) = _fileDependencies l ∧
  _reverseDependencies (update parentCompilation changedFiles l) = _reverseDependencies l.
Proof.
  destruct changedFiles as [files|]; [| done].
  unfold Loader.update.
  by destruct (foldl_evictAffected files
    (set_modifiedResources ∅ (set_parentCompilation (Some parentCompilation) l)))
    as (_ & -> & -> & _).
Qed.

End Graph.

Section Driver.

Variable normalizePath : jsstring -> jsstring.
Variable runAsChild : nat -> ChildRequest -> ChildOutcome.
Variable runInNewContext : jsstring -> jsstring -> VmOutcome.

Local Abbreviation update := (update normalizePath).
Local Abbreviation saveDependencies := (saveDependencies normalizePath).
Local Abbreviation forwardInReverse := (forwardInReverse normalizePath).
Local Abbreviation _evaluate := (_evaluate runInNewContext).
Local Abbreviation additionalAssets := (additionalAssets runInNewContext).
Local Abbreviation runChild := (runChild runAsChild).
Local Abbreviation _compile := (_compile normalizePath runAsChild runInNewContext).
Local Abbreviation get := (get normalizePath runAsChild runInNewContext).
Local Abbreviation process := (process normalizePath runAsChild runInNewContext).
Local Abbreviation perform := (perform normalizePath runAsChild runInNewContext).
Local Abbreviation session := (session normalizePath runAsChild runInNewContext).

(** ** The nested compilation driver *)

Lemma additionalAssets_fileDependencies outputFilePath built :
  fileDependencies (additionalAssets outputFilePath built) = fileDependencies built.
Proof.
  unfold Loader.additionalAssets.
  destruct (assets built !! outputFilePath); [| done].
  by destruct (_evaluate outputFilePath _) as [[?|]|?].
Qed.

Lemma compile_unbound filePath data mimeType l :
  _parentCompilation l = None →
  _compile filePath data mimeType l = (Abrupt MissingParentCompilation, l).
Proof. intros H. unfold Loader._compile, await, read. by rewrite H. Qed.

Lemma compile_script p data mimeType l parent :
  _parentCompilation l = Some parent →
  matchesScriptExtension p = true →
  _compile (Some p) data mimeType l = (Abrupt (UnsupportedResourceType p), l).
Proof. intros H Hp. unfold Loader._compile, await, read. by rewrite H, Hp. Qed.

(** A call for a file: the file names the output. *)
Lemma compile_file p data mimeType l parent :
  _parentCompilation l = Some parent →
  p ≠ [] →
  matchesScriptExtension p = false →
  let request := childRequest parent p (Some p) data mimeType in
  let ran := set_childRuns (childRuns l ++ [request]) l in
  _compile (Some p) data mimeType l =
  match runAsChild (length (childRuns l)) request with
  | ChildError error => (Abrupt (ChildCompilerError error), ran)
  | ChildNoCompilation => (Abrupt UnknownChildCompilationError, ran)
  | ChildDone built =>
      (Normal (compilationOutput runInNewContext p built),
       saveDependencies p (fileDependencies built) ran)
  end.
Proof.
  intros H Hne Hp. unfold Loader._compile, await, read. rewrite H, Hp.
  destruct p as [|c p]; [done |].
  unfold chooseOutputFilePath, Loader.runChild, compilationOutput, captureOutput,
    resolve, reject, write, truthy.
  cbn beta iota zeta.
  destruct (runAsChild _ _) as [error| |built]; try done.
  by rewrite additionalAssets_fileDependencies.
Qed.

(** A call without a usable file name ([undefined], or the empty string):
    the output gets a numbered name and no dependency is recorded. *)
Lemma compile_anonymous filePath data mimeType l parent :
  _parentCompilation l = Some parent →
  truthy filePath = None →
  let outputFilePath := syntheticOutputPath (outputPathCounter l) in
  let request := childRequest parent outputFilePath filePath data mimeType in
  let ran := set_childRuns (childRuns l ++ [request])
               (set_outputPathCounter (outputPathCounter l + 1) l) in
  _compile filePath data mimeType l =
  match runAsChild (length (childRuns l)) request with
  | ChildError error => (Abrupt (ChildCompilerError error), ran)
  | ChildNoCompilation => (Abrupt UnknownChildCompilationError, ran)
  | ChildDone built =>
      (Normal (compilationOutput runInNewContext outputFilePath built), ran)
  end.
Proof.
  intros H Hp. unfold Loader._compile, await, read. rewrite H.
  assert (Hscript : match filePath with
                    | Some p => matchesScriptExtension p
                    | None => false
                    end = false).
  { destruct filePath as [[|c p]|]; done. }
  unfold chooseOutputFilePath. rewrite Hp.
  unfold nextOutputPathCounter, Loader.runChild, compilationOutput, captureOutput,
    await, resolve, reject, write.
  cbn beta iota zeta.
  destruct filePath as [p|].
  - rewrite Hscript. cbn beta iota zeta. simpl childRuns.
    by destruct (runAsChild _ _) as [error| |built].
  - simpl childRuns. by destruct (runAsChild _ _) as [error| |built].
Qed.

Lemma compile_frame filePath data mimeType l :
  let l' := snd (_compile filePath data mimeType l) in
  _parentCompilation l' = _parentCompilation l ∧
  cache l' = cache l ∧
  modifiedResources l' = modifiedResources l.
Proof.
  destruct (_parentCompilation l) as [parent|] eqn:Hparent;
    [| by rewrite compile_unbound].
  destruct (truthy filePath) as [p|] eqn:Hp.
  - apply truthy_Some_inv in Hp as [-> Hne].
    destruct (matchesScriptExtension p) eqn:Hscript.
    + by erewrite compile_script.
    + erewrite compile_file by done.
      destruct (runAsChild _ _) as [error| |built]; simpl; try done.
      destruct (saveDependencies_frame normalizePath p (fileDependencies built)
        (set_childRuns (childRuns l ++
           [childRequest parent p (Some p) data mimeType]) l))
        as (-> & -> & -> & _). done.
  - erewrite compile_anonymous by done.
    by destruct (runAsChild _ _) as [error| |built].
Qed.

(** With a parent compilation bound and no script extension, [_compile]
    sets up and runs exactly one child compiler. *)
Lemma compile_runs_child filePath data mimeType l parent :
  _parentCompilation l = Some parent →
  (∀ p, filePath = Some p → matchesScriptExtension p = false) →
  ∃ outputFilePath,
    childRuns (snd (_compile filePath data mimeType l)) =
    childRuns l ++ [childRequest parent outputFilePath filePath data mimeType].
Proof.
  intros Hparent Hscript.
  destruct (truthy filePath) as [p|] eqn:Hp.
  - apply truthy_Some_inv in Hp as [-> Hne].
    exists p. erewrite compile_file by eauto.
    destruct (runAsChild _ _) as [error| |built]; simpl; try done.
    by destruct (saveDependencies_frame normalizePath p (fileDependencies built)
        (set_childRuns (childRuns l ++
           [childRequest parent p (Some p) data mimeType]) l))
        as (_ & _ & _ & _ & ->).
  - exists (syntheticOutputPath (outputPathCounter l)).
    erewrite compile_anonymous by done.
    by destruct (runAsChild _ _) as [error| |built].
Qed.

(** A resolved [_compile] had a parent compilation and no script file. *)
Lemma compile_resolved_inv filePath data mimeType l out l' :
  _compile filePath data mimeType l = (Normal out, l') →
  (∃ parent, _parentCompilation l = Some parent) ∧
  (∀ p, filePath = Some p → matchesScriptExtension p = false).
Proof.
  intros Hc.
  destruct (_parentCompilation l) as [parent|] eqn:Hparent.
  - split; [eauto |]. intros p ->.
    destruct (matchesScriptExtension p) eqn:Hp; [| done].
    erewrite compile_script in Hc by done. discriminate.
  - rewrite compile_unbound in Hc by done. discriminate.
Qed.

(** ** The cache *)

Lemma get_hit filePath l compilationResult :
  cache l !! normalizePath filePath = Some compilationResult →
  get filePath l = (Normal (CompilationOutput.content compilationResult), l).
Proof. intros H. unfold Loader.get, await, read. by rewrite H. Qed.

Lemma get_miss filePath l :
  cache l !! normalizePath filePath = None →
  get filePath l =
  match _compile (Some filePath) None None l with
  | (Normal compilationResult, l') =>
      (Normal (CompilationOutput.content compilationResult),
       if CompilationOutput.success compilationResult
       then set_cache (<[normalizePath filePath := compilationResult]> (cache l')) l'
       else l')
  | (Abrupt e, l') => (Abrupt e, l')
  end.
Proof.
  intros H. unfold Loader.get, await, read. rewrite H.
  destruct (_compile _ _ _ l) as [[out|e] l']; [| done].
  by destruct (CompilationOutput.success out).
Qed.

(** C3: when the compilation of a resource not yet in the cache succeeds,
    the [get] that ran it and the next [get] of the same resource return
    the same content, and the second leaves the loader as it found it: no
    child compiler is run. *)
Theorem get_twice_hits_cache R l out l1 :
  cache l !! normalizePath R = None →
  _compile (Some R) None None l = (Normal out, l1) →
  CompilationOutput.success out = true →
  ∃ l2, get R l = (Normal (CompilationOutput.content out), l2) ∧
        get R l2 = (Normal (CompilationOutput.content out), l2) ∧
        childRuns (snd (get R l2)) = childRuns l2.
Proof.
  intros Hmiss Hcompile Hsuccess.
  exists (set_cache (<[normalizePath R := out]> (cache l1)) l1).
  assert (Hfirst : get R l = (Normal (CompilationOutput.content out),
                             set_cache (<[normalizePath R := out]> (cache l1)) l1)).
  { rewrite get_miss by done. by rewrite Hcompile, Hsuccess. }
  assert (Hsecond : get R (set_cache (<[normalizePath R := out]> (cache l1)) l1)
                    = (Normal (CompilationOutput.content out),
                       set_cache (<[normalizePath R := out]> (cache l1)) l1)).
  { apply get_hit. simpl. apply lookup_insert_eq. }
  split_and!; [done | done |]. by rewrite Hsecond.
Qed.

(** C4: when the compilation of a resource not in the cache reports
    failure, [get] writes no cache entry, and the next [get] of the same
    resource sets up and runs a child compiler again. *)
Theorem failed_compile_not_cached K l out l1 :
  cache l !! normalizePath K = None →
  _compile (Some K) None None l = (Normal out, l1) →
  CompilationOutput.success out = false →
  get K l = (Normal (CompilationOutput.content out), l1) ∧
  cache l1 = cache l ∧
  cache l1 !! normalizePath K = None ∧
  ∃ parent outputFilePath,
    childRuns (snd (get K l1)) =
    childRuns l1 ++ [childRequest parent outputFilePath (Some K) None None].
Proof.
  intros Hmiss Hcompile Hfailure.
  destruct (compile_frame (Some K) None None l) as (Hparent & Hcache & _).
  rewrite Hcompile in Hparent, Hcache. simpl in Hparent, Hcache.
  destruct (compile_resolved_inv _ _ _ _ _ _ Hcompile) as [[parent Hbound] Hscript].
  assert (Hmiss1 : cache l1 !! normalizePath K = None) by by rewrite Hcache.
  split_and!; [| done | done |].
  - rewrite get_miss by done. by rewrite Hcompile, Hfailure.
  - rewrite <- Hparent in Hbound.
    destruct (compile_runs_child (Some K) None None l1 parent Hbound Hscript)
      as [outputFilePath Hruns].
    exists parent, outputFilePath. rewrite get_miss by done.
    destruct (_compile (Some K) None None l1) as [[out1|e] l2]; [| done].
    by destruct (CompilationOutput.success out1).
Qed.

(** C6: with a parent compilation bound, [_compile] rejects a path with a
    [.js] or [.ts] extension at once, and so does [get] when the cache has
    no entry for it: the loader is left as it was, no child compiler is
    set up or run. *)
Theorem script_files_rejected p l parent :
  scriptPath p →
  _parentCompilation l = Some parent →
  (∀ data mimeType,
     _compile (Some p) data mimeType l = (Abrupt (UnsupportedResourceType p), l)) ∧
  (cache l !! normalizePath p = None →
   get p l = (Abrupt (UnsupportedResourceType p), l) ∧
   childRuns (snd (get p l)) = childRuns l).
Proof.
  intros Hp%matchesScriptExtension_iff Hparent.
  assert (Hc : ∀ data mimeType,
    _compile (Some p) data mimeType l = (Abrupt (UnsupportedResourceType p), l)).
  { intros data mimeType. by eapply compile_script. }
  split; [exact Hc |].
  intros Hmiss. rewrite get_miss by done. by rewrite Hc.
Qed.

(** C7: when [_compile] is called for a file and the child compilation
    completes, whatever errors it reports and whatever the evaluation of
    its asset gives, the call resolves, the forward map gets the reported
    file dependencies for the resource, and the reverse map has the
    resource under the normalized name of each of them. *)
Theorem dependencies_recorded_whatever_the_outcome p data mimeType l parent built :
  _parentCompilation l = Some parent →
  p ≠ [] →
  matchesScriptExtension p = false →
  runAsChild (length (childRuns l)) (childRequest parent p (Some p) data mimeType)
    = ChildDone built →
  ∃ l', _compile (Some p) data mimeType l
          = (Normal (compilationOutput runInNewContext p built), l') ∧
        getResourceDependencies l' p = list_to_set (fileDependencies built) ∧
        ∀ f, f ∈ fileDependencies built →
             p ∈ getAffectedResources l' (normalizePath f).
Proof.
  intros Hparent Hne Hscript Hdone.
  eexists. split_and!.
  - rewrite (compile_file p data mimeType l parent) by done. by rewrite Hdone.
  - rewrite saveDependencies_dependencies. by rewrite decide_True.
  - intros f Hf. apply saveDependencies_affected. right. eauto.
Qed.

(** ** Evaluation of the emitted asset *)

Lemma evaluate_valid filename source v s :
  runInNewContext source filename = VmDone v →
  v = JsString s ∨ v = JsObject (JsString s) →
  _evaluate filename source = Normal (Some s).
Proof. intros H [-> | ->]; unfold Loader._evaluate; by rewrite H. Qed.

Lemma evaluate_invalid filename source v :
  runInNewContext source filename = VmDone v →
  ¬ validExport v →
  _evaluate filename source = Abrupt (DidNotReturnString filename).
Proof.
  intros H Hv. unfold Loader._evaluate. rewrite H.
  destruct v as [| | | |s|d]; simpl; try done.
  - destruct Hv. left. eauto.
  - destruct d as [| | | |s|d]; simpl; try done.
    destruct Hv. right. eauto.
Qed.

Lemma evaluate_threw filename source :
  runInNewContext source filename = VmThrew →
  _evaluate filename source = Normal None.
Proof. intros H. unfold Loader._evaluate. by rewrite H. Qed.

(** C8, as the code has it: [_evaluate] throws when the script ran but
    left neither a string nor an object with a string [default], and
    returns [null] when the script itself threw.  The asset hook catches
    what [_evaluate] throws and appends it to the errors of the child
    compilation: [_compile] does not fail, it resolves with the asset as
    emitted and [success: false].  After a script that threw, the hook
    changes nothing and [success] is what the child compilation's own
    errors make it. *)
Theorem invalid_export_is_a_compilation_error p data mimeType l parent built source :
  _parentCompilation l = Some parent →
  p ≠ [] →
  matchesScriptExtension p = false →
  runAsChild (length (childRuns l)) (childRequest parent p (Some p) data mimeType)
    = ChildDone built →
  assets built !! p = Some source →
  (∀ v, runInNewContext source p = VmDone v → ¬ validExport v →
     _evaluate p source = Abrupt (DidNotReturnString p) ∧
     additionalAssets p built =
       {| assets := assets built;
          errors := errors built ++ [DidNotReturnString p];
          fileDependencies := fileDependencies built |} ∧
     ∃ l', _compile (Some p) data mimeType l =
           (Normal {| CompilationOutput.content := source;
                      CompilationOutput.map := assets built !! (p ++ js ".map");
                      CompilationOutput.success := false |}, l')) ∧
  (runInNewContext source p = VmThrew →
     _evaluate p source = Normal None ∧
     additionalAssets p built = built ∧
     ∃ l', _compile (Some p) data mimeType l =
           (Normal {| CompilationOutput.content := source;
                      CompilationOutput.map := assets built !! (p ++ js ".map");
                      CompilationOutput.success :=
                        Nat.eqb (length (errors built)) 0 |}, l')).
Proof.
  intros Hparent Hne Hscript Hdone Hasset.
  pose proof (compile_file p data mimeType l parent Hparent Hne Hscript) as Hcompile.
  cbn zeta in Hcompile. rewrite Hdone in Hcompile.
  split.
  - intros v Hvm Hv.
    pose proof (evaluate_invalid p source v Hvm Hv) as Hevaluate.
    assert (Hhook : additionalAssets p built =
       {| assets := assets built;
          errors := errors built ++ [DidNotReturnString p];
          fileDependencies := fileDependencies built |}).
    { unfold Loader.additionalAssets. by rewrite Hasset, Hevaluate. }
    split_and!; [done | done |].
    eexists. rewrite Hcompile. f_equal.
    unfold compilationOutput, captureOutput. rewrite Hhook. simpl.
    rewrite Hasset, length_app. simpl. by rewrite Nat.add_1_r.
  - intros Hvm.
    pose proof (evaluate_threw p source Hvm) as Hevaluate.
    assert (Hhook : additionalAssets p built = built).
    { unfold Loader.additionalAssets. by rewrite Hasset, Hevaluate. }
    split_and!; [done | done |].
    eexists. rewrite Hcompile. f_equal.
    unfold compilationOutput, captureOutput. rewrite Hhook. simpl.
    by rewrite Hasset.
Qed.

(** ** Inline resources *)

Lemma process_blank data mimeType l :
  blank data → process data mimeType l = (Normal [], l).
Proof.
  intros H%blank_trim_test. unfold Loader.process. by rewrite H.
Qed.

Lemma process_not_blank data mimeType l :
  ¬ blank data →
  process data mimeType l =
  match _compile None (Some data) (Some mimeType) l with
  | (Normal compilationResult, l') =>
      (Normal (CompilationOutput.content compilationResult), l')
  | (Abrupt e, l') => (Abrupt e, l')
  end.
Proof.
  intros H. unfold Loader.process, await, resolve.
  destruct (Nat.eqb (length (trim data)) 0) eqn:E.
  - by apply blank_trim_test in E.
  - by destruct (_compile _ _ _ l) as [[out|e] l'].
Qed.

(** [_compile] without a file name neither reads nor writes the cache and
    the dependency maps. *)
Lemma compile_inline_frame data mimeType l :
  let l' := snd (_compile None data mimeType l) in
  cache l' = cache l ∧
  _fileDependencies l' = _fileDependencies l ∧
  _reverseDependencies l' = _reverseDependencies l.
Proof.
  destruct (_parentCompilation l) as [parent|] eqn:Hparent.
  - erewrite compile_anonymous by done.
    by destruct (runAsChild _ _) as [error| |built].
  - by rewrite compile_unbound.
Qed.

Lemma compile_inline_cache_blind data mimeType l c :
  _compile None data mimeType (set_cache c l) =
  (fst (_compile None data mimeType l),
   set_cache c (snd (_compile None data mimeType l))).
Proof.
  destruct (_parentCompilation l) as [parent|] eqn:Hparent.
  - rewrite (compile_anonymous None data mimeType (set_cache c l) parent) by done.
    rewrite (compile_anonymous None data mimeType l parent) by done.
    simpl. by destruct (runAsChild _ _) as [error| |built].
  - by rewrite !compile_unbound.
Qed.

(** C9: [process] returns the empty string for a blank input and leaves
    the loader as it was, so no child compiler is run.  For an input that
    is not blank, with a parent compilation bound, it sets up and runs one
    child compiler on the data and leaves the cache as it was.  Whatever
    the input, the cache is not consulted: with any other cache content
    the promise settles the same way and that content is left in place. *)
Theorem process_blank_short_circuit :
  (∀ data mimeType l,
     blank data →
     process data mimeType l = (Normal [], l) ∧
     childRuns (snd (process data mimeType l)) = childRuns l) ∧
  (∀ data mimeType l parent,
     ¬ blank data →
     _parentCompilation l = Some parent →
     childRuns (snd (process data mimeType l)) =
       childRuns l ++
       [childRequest parent (syntheticOutputPath (outputPathCounter l))
          None (Some data) (Some mimeType)] ∧
     cache (snd (process data mimeType l)) = cache l) ∧
  (∀ data mimeType l c,
     process data mimeType (set_cache c l) =
     (fst (process data mimeType l), set_cache c (snd (process data mimeType l)))).
Proof.
  split_and!.
  - intros data mimeType l H. by rewrite process_blank.
  - intros data mimeType l parent H Hparent. rewrite process_not_blank by done.
    rewrite (compile_anonymous None _ _ l parent) by done.
    by destruct (runAsChild _ _) as [error| |built].
  - intros data mimeType l c. unfold Loader.process.
    destruct (Nat.eqb (length (trim data)) 0); [done |].
    unfold await, resolve. rewrite compile_inline_cache_blind.
    by destruct (_compile None _ _ l) as [[out|e] l'].
Qed.

(** C10: [process] leaves the cache and both dependency maps as they
    were, for every input and in every state. *)
Theorem process_frame data mimeType l :
  let l' := snd (process data mimeType l) in
  cache l' = cache l ∧
  _fileDependencies l' = _fileDependencies l ∧
  _reverseDependencies l' = _reverseDependencies l.
Proof.
  unfold Loader.process.
  destruct (Nat.eqb (length (trim data)) 0); [done |].
  unfold await, resolve.
  pose proof (compile_inline_frame (Some data) (Some mimeType) l) as H.
  by destruct (_compile None _ _ l) as [[out|e] l'].
Qed.

(** ** The dependency graph over a session *)

Lemma compile_forwardInReverse filePath data mimeType l :
  forwardInReverse l →
  forwardInReverse (snd (_compile filePath data mimeType l)).
Proof.
  intros Hinv.
  destruct (_parentCompilation l) as [parent|] eqn:Hparent;
    [| by rewrite compile_unbound].
  destruct (truthy filePath) as [p|] eqn:Hp.
  - apply truthy_Some_inv in Hp as [-> Hne].
    destruct (matchesScriptExtension p) eqn:Hscript.
    + by erewrite compile_script.
    + erewrite compile_file by done.
      destruct (runAsChild _ _) as [error| |built]; simpl; try done.
      by apply saveDependencies_forwardInReverse.
  - erewrite compile_anonymous by done.
    by destruct (runAsChild _ _) as [error| |built].
Qed.

Lemma get_forwardInReverse filePath l :
  forwardInReverse l → forwardInReverse (snd (get filePath l)).
Proof.
  intros Hinv.
  destruct (cache l !! normalizePath filePath) as [hit|] eqn:Hcache.
  - by erewrite get_hit.
  - rewrite get_miss by done.
    pose proof (compile_forwardInReverse (Some filePath) None None l Hinv) as H.
    destruct (_compile _ _ _ l) as [[out|e] l']; [| done].
    by destruct (CompilationOutput.success out).
Qed.

Lemma process_graph data mimeType l :
  _fileDependencies (snd (process data mimeType l)) = _fileDependencies l ∧
  _reverseDependencies (snd (process data mimeType l)) = _reverseDependencies l.
Proof.
  unfold Loader.process.
  destruct (Nat.eqb (length (trim data)) 0); [done |].
  unfold await, resolve.
  destruct (compile_inline_frame (Some data) (Some mimeType) l) as (_ & Hf & Hr).
  by destruct (_compile None _ _ l) as [[out|e] l'].
Qed.

Lemma perform_forwardInReverse l c :
  forwardInReverse l → forwardInReverse (perform l c).
Proof.
  intros Hinv. destruct c as [parentCompilation changedFiles|filePath|data mimeType]; simpl.
  - destruct (update_graph normalizePath parentCompilation changedFiles l) as [Hf Hr].
    by eapply forwardInReverse_graph.
  - by apply get_forwardInReverse.
  - destruct (process_graph data mimeType l) as [Hf Hr].
    by eapply forwardInReverse_graph.
Qed.

Lemma foldl_perform_forwardInReverse calls l :
  forwardInReverse l → forwardInReverse (foldl perform l calls).
Proof.
  revert l. induction calls as [|c calls IH]; intros l Hinv; simpl; [done |].
  apply IH. by apply perform_forwardInReverse.
Qed.

(** C1, as the code has it: recording is additive.  Recording [files] for
    a resource makes them its forward set and adds the resource to the
    reverse set of each of them (under the file's normalized name); no
    reverse edge is ever removed.  So every forward edge has its reverse
    edge in each state a session of [update], [get] and [process] calls
    reaches, and after recording [A, B] and then [B, C] for [R] the
    dependents of [A], of [B] and of [C] all contain [R]. *)
Theorem recorded_edges_accumulate :
  (∀ l R files,
     let l' := saveDependencies R files l in
     getResourceDependencies l' R = list_to_set files ∧
     (∀ F, F ∈ files → R ∈ getAffectedResources l' (normalizePath F)) ∧
     (∀ file resource, resource ∈ getAffectedResources l file →
                       resource ∈ getAffectedResources l' file)) ∧
  (∀ calls, forwardInReverse (session calls)) ∧
  (∀ l R A B C,
     let l' := saveDependencies R [B; C] (saveDependencies R [A; B] l) in
     getResourceDependencies l' R = {[B; C]} ∧
     R ∈ getAffectedResources l' (normalizePath A) ∧
     R ∈ getAffectedResources l' (normalizePath B) ∧
     R ∈ getAffectedResources l' (normalizePath C)).
Proof.
  split_and!.
  - intros l R files. split_and!.
    + rewrite saveDependencies_dependencies. by rewrite decide_True.
    + intros F HF. apply saveDependencies_affected. right. eauto.
    + intros file resource H. apply saveDependencies_affected. by left.
  - intros calls. apply foldl_perform_forwardInReverse.
    intros resource file. unfold getResourceDependencies. simpl.
    rewrite lookup_empty. simpl. set_solver.
  - intros l R A B C. split_and!.
    + rewrite saveDependencies_dependencies, decide_True by done.
      simpl. set_solver.
    + apply saveDependencies_affected. left.
      apply saveDependencies_affected. right. split; [done |].
      exists A. split; [left | done].
    + apply saveDependencies_affected. right. split; [done |].
      exists B. split; [left | done].
    + apply saveDependencies_affected. right. split; [done |].
      exists C. split; [right; left | done].
Qed.

End Driver.

(** ** The statements on the concrete session *)

(** Decidable facts about the concrete session, by evaluation. *)
Ltac by_evaluation := apply (bool_decide_unpack _); vm_compute; exact I.

Lemma recorded_edges_accumulate_witness :
  Scenario.button ∈
    getAffectedResources
      (Scenario.saveDependencies Scenario.button [Scenario.vars; Scenario.mixins] newLoader)
      (Scenario.normalizePath Scenario.vars).
Proof.
  destruct (recorded_edges_accumulate
              Scenario.normalizePath Scenario.runAsChild Scenario.runInNewContext)
    as (Hrecord & _ & _).
  destruct (Hrecord newLoader Scenario.button [Scenario.vars; Scenario.mixins])
    as (_ & Hreverse & _).
  apply Hreverse. apply list_elem_of_here.
Defined.

(** Counterexample to C1 as the specification states it: [button] is
    recorded with [vars] and [mixins], then with [mixins] and [theme].  It
    is still a dependent of [vars], which is no longer one of its
    dependencies.  The same happens through the loader's methods in
    [Scenario.rebuilt]. *)
Lemma stale_reverse_edge_counterexample :
  let l := Scenario.saveDependencies Scenario.button [Scenario.mixins; Scenario.theme]
             (Scenario.saveDependencies Scenario.button [Scenario.vars; Scenario.mixins]
                newLoader) in
  (Scenario.button ∈ getAffectedResources l Scenario.vars ∧
   Scenario.vars ∉ getResourceDependencies l Scenario.button) ∧
  (Scenario.button ∈ getAffectedResources Scenario.rebuilt Scenario.vars ∧
   Scenario.vars ∉ getResourceDependencies Scenario.rebuilt Scenario.button).
Proof.
  cbv zeta. split_and!; by_evaluation.
Qed.

Lemma update_incremental_witness :
  let l := snd (Scenario.get Scenario.button Scenario.started) in
  Scenario.button ∈
    getModifiedResourceFiles (Scenario.update Scenario.app (Some [Scenario.vars]) l) ∧
  cache (Scenario.update Scenario.app (Some [Scenario.theme]) l) = cache l ∧
  getModifiedResourceFiles (Scenario.update Scenario.app (Some [Scenario.theme]) l) = ∅.
Proof.
  cbv zeta. split.
  - apply (update_incremental Scenario.normalizePath Scenario.app [Scenario.vars]).
    exists Scenario.vars. split; [apply list_elem_of_here | by_evaluation].
  - apply (update_incremental Scenario.normalizePath Scenario.app [Scenario.theme]).
    intros f Hf. apply list_elem_of_singleton in Hf. subst f.
    vm_compute. reflexivity.
Defined.

Lemma get_twice_hits_cache_witness :
  ∃ l2,
    Scenario.get Scenario.button Scenario.started
      = (Normal (js "resource = '.b{}'"), l2) ∧
    Scenario.get Scenario.button l2 = (Normal (js "resource = '.b{}'"), l2) ∧
    childRuns (snd (Scenario.get Scenario.button l2)) = childRuns l2.
Proof.
  apply (get_twice_hits_cache
           Scenario.normalizePath Scenario.runAsChild Scenario.runInNewContext
           Scenario.button Scenario.started Scenario.buttonOutput
           (snd (Scenario._compile (Some Scenario.button) None None Scenario.started))).
  - vm_compute. reflexivity.
  - vm_compute. reflexivity.
  - reflexivity.
Defined.

Lemma failed_compile_not_cached_witness :
  ∃ l1,
    Scenario.get Scenario.broken Scenario.started = (Normal [], l1) ∧
    cache l1 = cache Scenario.started ∧
    cache l1 !! Scenario.normalizePath Scenario.broken = None ∧
    ∃ parent outputFilePath,
      childRuns (snd (Scenario.get Scenario.broken l1)) =
      childRuns l1 ++ [childRequest parent outputFilePath (Some Scenario.broken) None None].
Proof.
  exists (snd (Scenario._compile (Some Scenario.broken) None None Scenario.started)).
  apply (failed_compile_not_cached
           Scenario.normalizePath Scenario.runAsChild Scenario.runInNewContext
           Scenario.broken Scenario.started Scenario.brokenOutput).
  - vm_compute. reflexivity.
  - vm_compute. reflexivity.
  - reflexivity.
Defined.

Lemma script_files_rejected_witness :
  Scenario._compile (Some Scenario.component) None None Scenario.started
    = (Abrupt (UnsupportedResourceType Scenario.component), Scenario.started) ∧
  Scenario.get Scenario.component Scenario.started
    = (Abrupt (UnsupportedResourceType Scenario.component), Scenario.started).
Proof.
  destruct (script_files_rejected
              Scenario.normalizePath Scenario.runAsChild Scenario.runInNewContext
              Scenario.component Scenario.started Scenario.app) as [Hcompile Hget].
  - exists (js "src/app.component"). right. reflexivity.
  - reflexivity.
  - split; [apply Hcompile |]. apply Hget. vm_compute. reflexivity.
Defined.

Lemma dependencies_recorded_whatever_the_outcome_witness :
  ∃ l',
    Scenario._compile (Some Scenario.broken) None None Scenario.started
      = (Normal Scenario.brokenOutput, l') ∧
    getResourceDependencies l' Scenario.broken = {[Scenario.broken; Scenario.vars]} ∧
    Scenario.broken ∈ getAffectedResources l' (Scenario.normalizePath Scenario.vars).
Proof.
  destruct (dependencies_recorded_whatever_the_outcome
              Scenario.normalizePath Scenario.runAsChild Scenario.runInNewContext
              Scenario.broken None None Scenario.started Scenario.app
              {| assets := ∅;
                 errors := [BuildError (js "Undefined variable.")];
                 fileDependencies := [Scenario.broken; Scenario.vars] |})
    as (l' & Hcompile & Hforward & Hreverse).
  - reflexivity.
  - discriminate.
  - vm_compute. reflexivity.
  - vm_compute. reflexivity.
  - exists l'. split_and!.
    + exact Hcompile.
    + rewrite Hforward. simpl. set_solver.
    + apply Hreverse. simpl. set_solver.
Defined.

Lemma invalid_export_is_a_compilation_error_witness :
  (∃ l', Scenario._compile (Some Scenario.odd) None None Scenario.started
         = (Normal Scenario.oddOutput, l')) ∧
  (∃ l', Scenario._compile (Some Scenario.inline) (Some (js "throw 0")) None
           Scenario.started
         = (Normal {| CompilationOutput.content := js "throw 0";
                      CompilationOutput.map := None;
                      CompilationOutput.success := true |}, l')).
Proof.
  split.
  - destruct (invalid_export_is_a_compilation_error
                Scenario.normalizePath Scenario.runAsChild Scenario.runInNewContext
                Scenario.odd None None Scenario.started Scenario.app
                {| assets := {[ Scenario.odd := js "resource = 42" ]};
                   errors := [];
                   fileDependencies := [Scenario.odd] |}
                (js "resource = 42")) as [Hinvalid _].
    + reflexivity.
    + discriminate.
    + vm_compute. reflexivity.
    + vm_compute. reflexivity.
    + vm_compute. reflexivity.
    + destruct (Hinvalid (JsNumber 42)) as (_ & _ & Hcompile).
      * vm_compute. reflexivity.
      * intros [[s Hs]|[s Hs]]; discriminate.
      * exact Hcompile.
  - destruct (invalid_export_is_a_compilation_error
                Scenario.normalizePath Scenario.runAsChild Scenario.runInNewContext
                Scenario.inline (Some (js "throw 0")) None Scenario.started Scenario.app
                {| assets := {[ Scenario.inline := js "throw 0" ]};
                   errors := [];
                   fileDependencies := [] |}
                (js "throw 0")) as [_ Hthrew].
    + reflexivity.
    + discriminate.
    + vm_compute. reflexivity.
    + vm_compute. reflexivity.
    + vm_compute. reflexivity.
    + destruct Hthrew as (_ & _ & Hcompile).
      * vm_compute. reflexivity.
      * exact Hcompile.
Defined.

(** Counterexample to C8 as the specification states it: the script
    emitted for [odd] runs and leaves the number 42, neither a string nor an
    object with a string [default]; yet [_compile] and [get] do not fail,
    they resolve with the emitted asset. *)
Lemma invalid_export_resolves_counterexample :
  Scenario.runInNewContext (js "resource = 42") Scenario.odd = VmDone (JsNumber 42) ∧
  ¬ validExport (JsNumber 42) ∧
  fst (Scenario._compile (Some Scenario.odd) None None Scenario.started)
    = Normal Scenario.oddOutput ∧
  fst (Scenario.get Scenario.odd Scenario.started) = Normal (js "resource = 42").
Proof.
  split_and!.
  - vm_compute. reflexivity.
  - intros [[s Hs]|[s Hs]]; discriminate.
  - vm_compute. reflexivity.
  - vm_compute. reflexivity.
Qed.

Lemma process_blank_short_circuit_witness :
  Scenario.process [0x20; 0x09; 0xA0; 0x0A] (js "text/css") Scenario.started
    = (Normal [], Scenario.started) ∧
  childRuns (snd (Scenario.process (js ".a{}") (js "text/css") Scenario.started)) =
    [childRequest Scenario.app (syntheticOutputPath 1) None
       (Some (js ".a{}")) (Some (js "text/css"))].
Proof.
  destruct (process_blank_short_circuit
              Scenario.normalizePath Scenario.runAsChild Scenario.runInNewContext)
    as (Hblank & Hrun & _).
  split.
  - apply Hblank. repeat constructor.
  - apply (Hrun (js ".a{}") (js "text/css") Scenario.started Scenario.app).
    + intros H. apply trim_length_zero_iff in H. vm_compute in H. discriminate.
    + reflexivity.
Defined.

(** * Further properties of the loader *)

Section Session.

Variable normalizePath : jsstring -> jsstring.
Variable runAsChild : nat -> ChildRequest -> ChildOutcome.
Variable runInNewContext : jsstring -> jsstring -> VmOutcome.

Local Abbreviation update := (update normalizePath).
Local Abbreviation saveDependencies := (saveDependencies normalizePath).
Local Abbreviation _evaluate := (_evaluate runInNewContext).
Local Abbreviation additionalAssets := (additionalAssets runInNewContext).
Local Abbreviation compilationOutput := (compilationOutput runInNewContext).
Local Abbreviation _compile := (_compile normalizePath runAsChild runInNewContext).
Local Abbreviation get := (get normalizePath runAsChild runInNewContext).
Local Abbreviation process := (process normalizePath runAsChild runInNewContext).
Local Abbreviation perform := (perform normalizePath runAsChild runInNewContext).
Local Abbreviation session := (session normalizePath runAsChild runInNewContext).

(** ** Failures *)

(** X1: a loader that no [update] has bound to a parent compilation rejects
    every compilation with the missing-parent error, before anything else
    is looked at (a script path included): [_compile] always, [get] on a
    cache miss, [process] on input that is not blank.  The loader is left
    as it was and no child compiler is run. *)
Theorem unbound_loader_rejects l :
  _parentCompilation l = None →
  (∀ filePath data mimeType,
     _compile filePath data mimeType l = (Abrupt MissingParentCompilation, l)) ∧
  (∀ filePath,
     cache l !! normalizePath filePath = None →
     get filePath l = (Abrupt MissingParentCompilation, l)) ∧
  (∀ data mimeType,
     ¬ blank data →
     process data mimeType l = (Abrupt MissingParentCompilation, l)).
Proof.
  intros Hparent. split_and!.
  - intros filePath data mimeType.
    by apply (compile_unbound normalizePath runAsChild runInNewContext).
  - intros filePath Hmiss.
    rewrite (get_miss normalizePath runAsChild runInNewContext) by done.
    by rewrite (compile_unbound normalizePath runAsChild runInNewContext).
  - intros data mimeType Hdata.
    rewrite (process_not_blank normalizePath runAsChild runInNewContext) by done.
    by rewrite (compile_unbound normalizePath runAsChild runInNewContext).
Qed.

(** What a [_compile] that rejects leaves behind: the cache, the modified
    set and both dependency maps are as before. *)
Lemma compile_rejected_frame filePath data mimeType l e l' :
  _compile filePath data mimeType l = (Abrupt e, l') →
  cache l' = cache l ∧
  modifiedResources l' = modifiedResources l ∧
  _fileDependencies l' = _fileDependencies l ∧
  _reverseDependencies l' = _reverseDependencies l.
Proof.
  intros Hc.
  destruct (_parentCompilation l) as [parent|] eqn:Hparent.
  - destruct (truthy filePath) as [p|] eqn:Hp.
    + apply truthy_Some_inv in Hp as [-> Hne].
      destruct (matchesScriptExtension p) eqn:Hscript.
      * rewrite (compile_script normalizePath runAsChild runInNewContext
                   p data mimeType l parent) in Hc by done.
        by simplify_eq.
      * rewrite (compile_file normalizePath runAsChild runInNewContext
                   p data mimeType l parent) in Hc by done.
        destruct (runAsChild _ _) as [error| |built]; by simplify_eq.
    + rewrite (compile_anonymous normalizePath runAsChild runInNewContext
                 filePath data mimeType l parent) in Hc by done.
      destruct (runAsChild _ _) as [error| |built]; by simplify_eq.
  - rewrite (compile_unbound normalizePath runAsChild runInNewContext) in Hc by done.
    by simplify_eq.
Qed.

(** X2: a [get] or a [process] that rejects, for whatever reason (no parent
    compilation, a script path, an error of the child compiler, a child
    compiler that delivers no compilation), has written nothing: no cache
    entry, no dependency edge, no modified resource. *)
Theorem rejection_records_nothing :
  (∀ filePath l e l',
     get filePath l = (Abrupt e, l') →
     cache l' = cache l ∧
     modifiedResources l' = modifiedResources l ∧
     _fileDependencies l' = _fileDependencies l ∧
     _reverseDependencies l' = _reverseDependencies l) ∧
  (∀ data mimeType l e l',
     process data mimeType l = (Abrupt e, l') →
     cache l' = cache l ∧
     modifiedResources l' = modifiedResources l ∧
     _fileDependencies l' = _fileDependencies l ∧
     _reverseDependencies l' = _reverseDependencies l).
Proof.
  split.
  - intros filePath l e l' Hget.
    destruct (cache l !! normalizePath filePath) as [hit|] eqn:Hcache.
    + rewrite (get_hit normalizePath runAsChild runInNewContext _ _ hit) in Hget by done.
      discriminate.
    + rewrite (get_miss normalizePath runAsChild runInNewContext) in Hget by done.
      destruct (_compile (Some filePath) None None l) as [[out|e0] l0] eqn:Hc.
      * discriminate.
      * simplify_eq. by eapply compile_rejected_frame.
  - intros data mimeType l e l' Hprocess.
    unfold Loader.process in Hprocess.
    destruct (Nat.eqb (length (trim data)) 0); [discriminate |].
    unfold await, resolve in Hprocess.
    destruct (_compile None (Some data) (Some mimeType) l) as [[out|e0] l0] eqn:Hc.
    + discriminate.
    + simplify_eq. by eapply compile_rejected_frame.
Qed.

(** ** Invalidation, end to end *)

(** A [get] that misses, for a file that may be compiled, runs one child
    compiler, set up for that file. *)
Lemma get_miss_runs_child p l parent :
  _parentCompilation l = Some parent →
  p ≠ [] →
  matchesScriptExtension p = false →
  cache l !! normalizePath p = None →
  childRuns (snd (get p l)) =
  childRuns l ++ [childRequest parent p (Some p) None None].
Proof.
  intros Hparent Hne Hscript Hmiss.
  rewrite get_miss by done. rewrite (compile_file _ _ _ p None None l parent) by done.
  destruct (runAsChild _ _) as [error| |built]; [done | done |].
  destruct (saveDependencies_frame normalizePath p (fileDependencies built)
    (set_childRuns (childRuns l ++ [childRequest parent p (Some p) None None]) l))
    as (_ & _ & _ & _ & Hruns).
  case_match; simpl; by rewrite Hruns.
Qed.

(** A [get] that misses and whose child compilation completes without
    errors: what it returns and the state it leaves. *)
Lemma get_miss_done p l parent built :
  _parentCompilation l = Some parent →
  p ≠ [] →
  matchesScriptExtension p = false →
  cache l !! normalizePath p = None →
  runAsChild (length (childRuns l)) (childRequest parent p (Some p) None None)
    = ChildDone built →
  CompilationOutput.success (compilationOutput p built) = true →
  get p l =
  (Normal (CompilationOutput.content (compilationOutput p built)),
   set_cache
     (<[normalizePath p := compilationOutput p built]> (cache l))
     (saveDependencies p (fileDependencies built)
        (set_childRuns
           (childRuns l ++ [childRequest parent p (Some p) None None]) l))).
Proof.
  intros Hparent Hne Hscript Hmiss Hdone Hsuccess.
  rewrite get_miss by done. rewrite (compile_file _ _ _ p None None l parent) by done.
  rewrite Hdone, Hsuccess.
  by destruct (saveDependencies_frame normalizePath p (fileDependencies built)
    (set_childRuns (childRuns l ++ [childRequest parent p (Some p) None None]) l))
    as (_ & -> & _).
Qed.


(** X4: an [update] with changed files none of whose dependents has the
    cache key of a cached resource leaves that resource cached: the next
    [get] returns the cached content and runs nothing. *)
Theorem unaffected_resource_stays_cached R l out parent changedFiles :
  cache l !! normalizePath R = Some out →
  (∀ f r, f ∈ changedFiles → r ∈ getAffectedResources l f →
          normalizePath r ≠ normalizePath R) →
  let l' := update parent (Some changedFiles) l in
  get R l' = (Normal (CompilationOutput.content out), l').
Proof.
  intros Hhit Hother. cbv zeta. apply get_hit.
  unfold Loader.update.
  set (l0 := set_modifiedResources ∅ (set_parentCompilation (Some parent) l)).
  destruct (foldl_evictAffected normalizePath changedFiles l0) as (_ & _ & _ & _ & _ & _ & Hc).
  apply Hc. split; [done |]. exact Hother.
Qed.

(** ** What every session keeps *)

Lemma process_cache data mimeType l :
  cache (snd (process data mimeType l)) = cache l.
Proof.
  unfold Loader.process.
  destruct (Nat.eqb (length (trim data)) 0); [done |].
  unfold await, resolve.
  destruct (compile_frame normalizePath runAsChild runInNewContext
              None (Some data) (Some mimeType) l) as (_ & Hcache & _).
  by destruct (_compile None _ _ l) as [[out|e] l'].
Qed.

Lemma update_cache_shrinks parent changedFiles l k out :
  cache (update parent changedFiles l) !! k = Some out → cache l !! k = Some out.
Proof.
  destruct changedFiles as [files|]; [| done].
  unfold Loader.update.
  set (l0 := set_modifiedResources ∅ (set_parentCompilation (Some parent) l)).
  destruct (foldl_evictAffected normalizePath files l0) as (_ & _ & _ & _ & _ & _ & Hc).
  intros H. by apply Hc in H as [H _].
Qed.

Lemma perform_cache l c :
  (∀ k out, cache l !! k = Some out →
            CompilationOutput.success out = true ∧ ∃ p, k = normalizePath p) →
  ∀ k out, cache (perform l c) !! k = Some out →
           CompilationOutput.success out = true ∧ ∃ p, k = normalizePath p.
Proof.
  intros Hinv k out.
  destruct c as [parent changedFiles|filePath|data mimeType]; simpl.
  - intros H%update_cache_shrinks. by apply Hinv.
  - destruct (cache l !! normalizePath filePath) as [hit|] eqn:Hcache.
    + erewrite get_hit by done. apply Hinv.
    + rewrite get_miss by done.
      destruct (compile_frame normalizePath runAsChild runInNewContext
                  (Some filePath) None None l) as (_ & Hframe & _).
      destruct (_compile (Some filePath) None None l) as [[result|e] l'];
        simpl in Hframe; simpl; [| rewrite Hframe; apply Hinv].
      destruct (CompilationOutput.success result) eqn:Hsuccess; simpl;
        [| rewrite Hframe; apply Hinv].
      rewrite Hframe.
      destruct (decide (normalizePath filePath = k)) as [<-|Hne].
      * rewrite lookup_insert_eq. intros [= <-]. eauto.
      * rewrite lookup_insert_ne by done. apply Hinv.
  - rewrite process_cache. apply Hinv.
Qed.

(** X5: in every state a session of [update], [get] and [process] calls
    reaches, each cache entry holds an output whose compilation succeeded,
    under a key that is the normalized name of some path. *)
Theorem session_cache_holds_successes calls k out :
  cache (session calls) !! k = Some out →
  CompilationOutput.success out = true ∧ ∃ p, k = normalizePath p.
Proof.
  unfold Loader.session. revert k out.
  assert (Hnew : ∀ k out, cache newLoader !! k = Some out →
            CompilationOutput.success out = true ∧ ∃ p, k = normalizePath p).
  { intros k out H. simpl in H. by rewrite lookup_empty in H. }
  revert Hnew. generalize newLoader.
  induction calls as [|c calls IH]; intros l Hinv; simpl; [done |].
  apply IH. by apply perform_cache.
Qed.

Lemma saveDependencies_fileDependencies p files l :
  _fileDependencies (saveDependencies p files l) =
  <[p := list_to_set files]> (_fileDependencies l).
Proof.
  unfold Loader.saveDependencies.
  by destruct (foldl_addReverseDependency_frame normalizePath p files
    (set_fileDependencies (<[p:=list_to_set files]> (_fileDependencies l)) l))
    as (_ & -> & _).
Qed.

Lemma compiledResource_saveDependencies p files l r :
  compiledResource l r → compiledResource (saveDependencies p files l) r.
Proof.
  intros (Hne & Hscript & Hforward). split_and!; [done | done |].
  rewrite saveDependencies_fileDependencies.
  destruct (decide (p = r)) as [->|Hpr].
  - rewrite lookup_insert_eq. eauto.
  - by rewrite lookup_insert_ne.
Qed.

Lemma compile_graph_resources filePath data mimeType l :
  ((∀ file r, r ∈ getAffectedResources l file →
              compiledResource l r ∧ ∃ f, file = normalizePath f) ∧
   (∀ r, r ∈ modifiedResources l → compiledResource l r)) →
  let l' := snd (_compile filePath data mimeType l) in
  (∀ file r, r ∈ getAffectedResources l' file →
             compiledResource l' r ∧ ∃ f, file = normalizePath f) ∧
  (∀ r, r ∈ modifiedResources l' → compiledResource l' r).
Proof.
  intros [Hrev Hmod]. cbv zeta.
  destruct (_parentCompilation l) as [parent|] eqn:Hparent;
    [| by rewrite compile_unbound].
  destruct (truthy filePath) as [p|] eqn:Hp.
  - apply truthy_Some_inv in Hp as [-> Hne].
    destruct (matchesScriptExtension p) eqn:Hscript.
    + by erewrite compile_script.
    + erewrite compile_file by done.
      destruct (runAsChild _ _) as [error| |built]; [done | done |].
      simpl snd.
      set (ran := set_childRuns _ l).
      split.
      * intros file r [Hold | [-> (f & Hf & <-)]]%saveDependencies_affected.
        -- destruct (Hrev file r Hold) as [Hr Hfile]. split; [| done].
           by apply compiledResource_saveDependencies.
        -- split; [| eauto]. split_and!; [done | done |].
           rewrite saveDependencies_fileDependencies, lookup_insert_eq. eauto.
      * intros r Hr. apply compiledResource_saveDependencies. apply Hmod.
        destruct (saveDependencies_frame normalizePath p (fileDependencies built) ran)
          as (_ & _ & Hsame & _).
        by rewrite Hsame in Hr.
  - erewrite compile_anonymous by done.
    by destruct (runAsChild _ _) as [error| |built].
Qed.

Lemma perform_graph_resources l c :
  ((∀ file r, r ∈ getAffectedResources l file →
              compiledResource l r ∧ ∃ f, file = normalizePath f) ∧
   (∀ r, r ∈ modifiedResources l → compiledResource l r)) →
  (∀ file r, r ∈ getAffectedResources (perform l c) file →
             compiledResource (perform l c) r ∧ ∃ f, file = normalizePath f) ∧
  (∀ r, r ∈ modifiedResources (perform l c) → compiledResource (perform l c) r).
Proof.
  intros Hinv.
  destruct c as [parent changedFiles|filePath|data mimeType]; simpl.
  - destruct Hinv as [Hrev Hmod].
    assert (Hsame : ∀ r, compiledResource (update parent changedFiles l) r
                         ↔ compiledResource l r).
    { intros r. unfold compiledResource.
      by destruct (update_graph normalizePath parent changedFiles l) as [-> _]. }
    assert (Haff : ∀ file, getAffectedResources (update parent changedFiles l) file
                           = getAffectedResources l file).
    { intros file. unfold getAffectedResources.
      by destruct (update_graph normalizePath parent changedFiles l) as [_ ->]. }
    split.
    + intros file r. rewrite Haff, Hsame. apply Hrev.
    + intros r. rewrite Hsame. destruct changedFiles as [files|]; [| set_solver].
      unfold Loader.update.
      set (l0 := set_modifiedResources ∅ (set_parentCompilation (Some parent) l)).
      destruct (foldl_evictAffected normalizePath files l0)
        as (_ & _ & _ & _ & _ & Hm & _).
      intros [Hr | (f & _ & Hr)]%Hm; [set_solver |].
      by destruct (Hrev f r Hr).
  - destruct (cache l !! normalizePath filePath) as [hit|] eqn:Hcache.
    + by erewrite get_hit.
    + rewrite get_miss by done.
      pose proof (compile_graph_resources (Some filePath) None None l Hinv) as H.
      destruct (_compile (Some filePath) None None l) as [[result|e] l']; [| done].
      by destruct (CompilationOutput.success result).
  - unfold Loader.process.
    destruct (Nat.eqb (length (trim data)) 0); [done |].
    unfold await, resolve.
    pose proof (compile_graph_resources None (Some data) (Some mimeType) l Hinv) as H.
    by destruct (_compile None _ _ l) as [[result|e] l'].
Qed.

(** X6: in every state a session reaches, each resource that is a dependent
    of some file, or that is among the modified resources, is one the
    loader compiled for a file: it is not the empty path, has no script
    extension and has an entry in the forward map.  The reverse map has
    dependents only under normalized file names. *)
Theorem session_graph_holds_compiled_resources calls :
  (∀ file r, r ∈ getAffectedResources (session calls) file →
             compiledResource (session calls) r ∧ ∃ f, file = normalizePath f) ∧
  (∀ r, r ∈ getModifiedResourceFiles (session calls) →
        compiledResource (session calls) r).
Proof.
  unfold Loader.session, getModifiedResourceFiles.
  assert (Hnew :
    (∀ file r, r ∈ getAffectedResources newLoader file →
               compiledResource newLoader r ∧ ∃ f, file = normalizePath f) ∧
    (∀ r, r ∈ modifiedResources newLoader → compiledResource newLoader r)).
  { split; [intros file r H | intros r H]; by apply elem_of_empty in H. }
  revert Hnew. generalize newLoader.
  induction calls as [|c calls IH]; intros l Hinv; simpl; [done |].
  apply IH. by apply perform_graph_resources.
Qed.

(** ** Names of inline outputs *)





Lemma update_trace parent changedFiles l :
  childRuns (update parent changedFiles l) = childRuns l ∧
  outputPathCounter (update parent changedFiles l) = outputPathCounter l.
Proof.
  destruct changedFiles as [files|]; [| done].
  unfold Loader.update.
  by destruct (foldl_evictAffected normalizePath files
    (set_modifiedResources ∅ (set_parentCompilation (Some parent) l)))
    as (_ & _ & _ & -> & -> & _).
Qed.




(** ** Dependents supplied from outside *)

(** X8: [setAffectedResources] overwrites the dependents of one file (the
    earlier ones are dropped, not merged) and touches nothing else; the
    forward map in particular is not told.  An [update] for that file then
    reports exactly the supplied resources as modified and evicts the cache
    entry of each. *)
Theorem supplied_dependents_drive_invalidation file resources l parent :
  let l1 := setAffectedResources file resources l in
  let l2 := update parent (Some [file]) l1 in
  (∀ r, r ∈ getAffectedResources l1 file ↔ r ∈ resources) ∧
  (∀ other, other ≠ file →
            getAffectedResources l1 other = getAffectedResources l other) ∧
  (∀ r, r ∈ getModifiedResourceFiles l2 ↔ r ∈ resources) ∧
  (∀ r, r ∈ resources → cache l2 !! normalizePath r = None) ∧
  _fileDependencies l2 = _fileDependencies l.
Proof.
  cbv zeta.
  assert (Hset : ∀ r, r ∈ getAffectedResources (setAffectedResources file resources l) file
                      ↔ r ∈ resources).
  { intros r. unfold getAffectedResources, setAffectedResources. simpl.
    rewrite lookup_insert_eq. simpl. apply elem_of_list_to_set. }
  unfold Loader.update.
  set (l0 := set_modifiedResources ∅
               (set_parentCompilation (Some parent)
                  (setAffectedResources file resources l))).
  destruct (foldl_evictAffected normalizePath [file] l0)
    as (_ & Hforward & _ & _ & _ & Hm & Hc).
  change (getAffectedResources l0)
    with (getAffectedResources (setAffectedResources file resources l)) in *.
  split_and!.
  - exact Hset.
  - intros other Hne. unfold getAffectedResources, setAffectedResources. simpl.
    by rewrite lookup_insert_ne.
  - intros r. unfold getModifiedResourceFiles. rewrite Hm, <- Hset. split.
    + intros [Hr | (f & ->%list_elem_of_singleton & Hr)]; [| done].
      by apply elem_of_empty in Hr.
    + intros Hr. right. exists file. split; [apply list_elem_of_here | done].
  - intros r Hr%Hset. apply eq_None_not_Some. intros [v Hv].
    apply Hc in Hv as [_ Hv].
    apply (Hv file r); [apply list_elem_of_here | done | done].
  - by rewrite Hforward.
Qed.

(** ** The content of a result *)

Lemma map_name_differs (p : jsstring) : p ++ js ".map" ≠ p.
Proof.
  intros H. apply (f_equal length) in H. rewrite length_app in H.
  change (length (js ".map")) with 4%nat in H. lia.
Qed.

(** X9: when the script the child compilation emitted under the output
    name runs and leaves a string, or an object whose [default] is a
    string, that string (not the script) is the content: [get] returns it;
    and when the child compilation reported no error it is cached, with the
    adjacent [.map] asset as its map. *)
Theorem exported_string_is_the_content p l parent built source v s :
  _parentCompilation l = Some parent →
  p ≠ [] →
  matchesScriptExtension p = false →
  cache l !! normalizePath p = None →
  runAsChild (length (childRuns l)) (childRequest parent p (Some p) None None)
    = ChildDone built →
  assets built !! p = Some source →
  runInNewContext source p = VmDone v →
  v = JsString s ∨ v = JsObject (JsString s) →
  fst (get p l) = Normal s ∧
  (errors built = [] →
   cache (snd (get p l)) !! normalizePath p =
   Some {| CompilationOutput.content := s;
           CompilationOutput.map := assets built !! (p ++ js ".map");
           CompilationOutput.success := true |}) ∧
  (errors built ≠ [] → cache (snd (get p l)) = cache l).
Proof.
  intros Hparent Hne Hscript Hmiss Hdone Hasset Hvm Hv.
  assert (Hout : compilationOutput p built =
    {| CompilationOutput.content := s;
       CompilationOutput.map := assets built !! (p ++ js ".map");
       CompilationOutput.success := Nat.eqb (length (errors built)) 0 |}).
  { unfold Loader.compilationOutput, captureOutput, Loader.additionalAssets.
    rewrite Hasset, (evaluate_valid runInNewContext p source v s Hvm Hv). simpl.
    rewrite lookup_insert_eq, lookup_insert_ne by (symmetry; apply map_name_differs).
    done. }
  rewrite get_miss by done. rewrite (compile_file _ _ _ p None None l parent) by done.
  rewrite Hdone, Hout. simpl.
  set (l1 := saveDependencies _ _ _).
  assert (Hcache : cache l1 = cache l).
  { subst l1.
    by destruct (saveDependencies_frame normalizePath p (fileDependencies built)
      (set_childRuns (childRuns l ++ [childRequest parent p (Some p) None None]) l))
      as (_ & -> & _). }
  split_and!; [done | |].
  - intros ->. simpl. apply lookup_insert_eq.
  - intros Herrors. by destruct (errors built).
Qed.

(** X10: when the child compilation completes without an asset under the
    output name, the content is the empty string.  Without child errors
    that empty result is cached like any other: the next [get] returns the
    empty string again and runs nothing. *)
Theorem missing_asset_gives_empty_content p l parent built :
  _parentCompilation l = Some parent →
  p ≠ [] →
  matchesScriptExtension p = false →
  cache l !! normalizePath p = None →
  runAsChild (length (childRuns l)) (childRequest parent p (Some p) None None)
    = ChildDone built →
  assets built !! p = None →
  fst (get p l) = Normal [] ∧
  (errors built = [] → get p (snd (get p l)) = (Normal [], snd (get p l))).
Proof.
  intros Hparent Hne Hscript Hmiss Hdone Hasset.
  assert (Hout : compilationOutput p built =
    {| CompilationOutput.content := [];
       CompilationOutput.map := assets built !! (p ++ js ".map");
       CompilationOutput.success := Nat.eqb (length (errors built)) 0 |}).
  { unfold Loader.compilationOutput, captureOutput, Loader.additionalAssets.
    rewrite Hasset. simpl. by rewrite Hasset. }
  rewrite get_miss by done. rewrite (compile_file _ _ _ p None None l parent) by done.
  rewrite Hdone, Hout. simpl. split; [done |].
  intros ->. simpl.
  apply (get_hit _ _ _ p _
           {| CompilationOutput.content := [];
              CompilationOutput.map := assets built !! (p ++ js ".map");
              CompilationOutput.success := true |}).
  simpl. apply lookup_insert_eq.
Qed.

(** X11: the cache is keyed by normalized names only.  Once a file is
    compiled and cached, a [get] for any path with the same normalized name
    returns the cached content and runs no child compiler, whatever that
    path's own spelling or extension; the forward map has an entry for the
    spelling that was compiled, none is added for the other. *)
Theorem normalized_aliases_share_a_cache_entry p q l parent built :
  _parentCompilation l = Some parent →
  p ≠ [] →
  matchesScriptExtension p = false →
  cache l !! normalizePath p = None →
  runAsChild (length (childRuns l)) (childRequest parent p (Some p) None None)
    = ChildDone built →
  CompilationOutput.success (compilationOutput p built) = true →
  normalizePath q = normalizePath p →
  let l1 := snd (get p l) in
  get q l1 = (Normal (CompilationOutput.content (compilationOutput p built)), l1) ∧
  (q ≠ p → _fileDependencies l1 !! q = _fileDependencies l !! q).
Proof.
  intros Hparent Hne Hscript Hmiss Hdone Hsuccess Hq. cbv zeta.
  rewrite (get_miss_done p l parent built) by done. simpl snd. split.
  - apply get_hit. simpl. rewrite Hq. apply lookup_insert_eq.
  - intros Hqp. simpl. rewrite saveDependencies_fileDependencies.
    by rewrite lookup_insert_ne.
Qed.

(** X12: child compilers are created from the parent compilation of the
    latest [update].  After an [update] a [get] that misses runs one child
    compiler in that parent's context, and so does a [process] of input
    that is not blank; after an [update] without changed files every [get]
    of a file that may be compiled misses. *)
Theorem child_compilers_use_the_latest_parent parent changedFiles l :
  let l' := update parent changedFiles l in
  (∀ p, p ≠ [] → matchesScriptExtension p = false →
        cache l' !! normalizePath p = None →
        childRuns (snd (get p l')) =
        childRuns l ++ [childRequest parent p (Some p) None None]) ∧
  (∀ data mimeType, ¬ blank data →
        childRuns (snd (process data mimeType l')) =
        childRuns l ++
        [childRequest parent (syntheticOutputPath (outputPathCounter l))
           None (Some data) (Some mimeType)]) ∧
  (changedFiles = None → ∀ p, cache l' !! normalizePath p = None).
Proof.
  cbv zeta.
  assert (Hparent : _parentCompilation (update parent changedFiles l) = Some parent).
  { destruct changedFiles as [files|]; [| done]. unfold Loader.update.
    by destruct (foldl_evictAffected normalizePath files
      (set_modifiedResources ∅ (set_parentCompilation (Some parent) l)))
      as (-> & _). }
  destruct (update_trace parent changedFiles l) as [Hruns Hcounter].
  split_and!.
  - intros p Hne Hscript Hmiss.
    rewrite (get_miss_runs_child p _ parent) by done. by rewrite Hruns.
  - intros data mimeType Hdata. rewrite process_not_blank by done.
    rewrite (compile_anonymous _ _ _ None _ _ _ parent) by done.
    rewrite Hruns, Hcounter.
    by destruct (runAsChild _ _) as [error| |built].
  - intros -> p. simpl. apply lookup_empty.
Qed.

End Session.

(** ** The further statements on concrete sessions *)

Lemma unbound_loader_rejects_witness :
  get Scenario.normalizePath Scenario.runAsChild Scenario.runInNewContext
    Scenario.button newLoader
  = (Abrupt MissingParentCompilation, newLoader) ∧
  process Scenario.normalizePath Scenario.runAsChild Scenario.runInNewContext
    (js ".a{}") (js "text/css") newLoader
  = (Abrupt MissingParentCompilation, newLoader).
Proof.
  destruct (unbound_loader_rejects
              Scenario.normalizePath Scenario.runAsChild Scenario.runInNewContext
              newLoader) as (_ & Hget & Hprocess).
  - reflexivity.
  - split.
    + apply Hget. reflexivity.
    + apply Hprocess. intros H. apply trim_length_zero_iff in H.
      vm_compute in H. discriminate.
Defined.

Lemma rejection_records_nothing_witness :
  let r := get Scenario.normalizePath Faults.failingChild Scenario.runInNewContext
             Scenario.button Scenario.started in
  fst r = Abrupt (ChildCompilerError (js "ENOMEM")) ∧
  cache (snd r) = cache Scenario.started ∧
  _reverseDependencies (snd r) = _reverseDependencies Scenario.started.
Proof.
  cbv zeta.
  destruct (rejection_records_nothing
              Scenario.normalizePath Faults.failingChild Scenario.runInNewContext)
    as [Hget _].
  destruct (Hget Scenario.button Scenario.started
              (ChildCompilerError (js "ENOMEM"))
              (snd (get Scenario.normalizePath Faults.failingChild
                      Scenario.runInNewContext Scenario.button Scenario.started)))
    as (Hcache & _ & _ & Hreverse).
  - vm_compute. reflexivity.
  - split_and!; [vm_compute; reflexivity | exact Hcache | exact Hreverse].
Defined.


Lemma unaffected_resource_stays_cached_witness :
  let l := snd (Scenario.get Scenario.button Scenario.started) in
  let l' := Scenario.update Scenario.app (Some [Scenario.theme]) l in
  Scenario.get Scenario.button l' = (Normal (js "resource = '.b{}'"), l').
Proof.
  cbv zeta.
  apply (unaffected_resource_stays_cached
           Scenario.normalizePath Scenario.runAsChild Scenario.runInNewContext
           Scenario.button _ Scenario.buttonOutput Scenario.app [Scenario.theme]).
  - vm_compute. reflexivity.
  - intros f r Hf Hr. apply list_elem_of_singleton in Hf. subst f.
    assert (Hnone : getAffectedResources
                      (snd (Scenario.get Scenario.button Scenario.started))
                      Scenario.theme = ∅) by (vm_compute; reflexivity).
    rewrite Hnone in Hr. by apply elem_of_empty in Hr.
Defined.

Lemma session_cache_holds_successes_witness :
  CompilationOutput.success Scenario.buttonOutput = true ∧
  ∃ p, Scenario.normalizePath Scenario.button = Scenario.normalizePath p.
Proof.
  apply (session_cache_holds_successes
           Scenario.normalizePath Scenario.runAsChild Scenario.runInNewContext
           [CallUpdate Scenario.app None; CallGet Scenario.button]).
  vm_compute. reflexivity.
Defined.

Lemma session_graph_holds_compiled_resources_witness :
  compiledResource
    (session Scenario.normalizePath Scenario.runAsChild Scenario.runInNewContext
       [CallUpdate Scenario.app None; CallGet Scenario.button])
    Scenario.button.
Proof.
  destruct (session_graph_holds_compiled_resources
              Scenario.normalizePath Scenario.runAsChild Scenario.runInNewContext
              [CallUpdate Scenario.app None; CallGet Scenario.button])
    as [Hreverse _].
  apply (Hreverse Scenario.vars Scenario.button). by_evaluation.
Defined.

Lemma supplied_dependents_drive_invalidation_witness :
  let l := snd (Scenario.get Scenario.button Scenario.started) in
  let l2 := Scenario.update Scenario.app (Some [Scenario.theme])
              (setAffectedResources Scenario.theme [Scenario.button] l) in
  Scenario.button ∈ getModifiedResourceFiles l2 ∧
  cache l2 !! Scenario.normalizePath Scenario.button = None.
Proof.
  cbv zeta.
  destruct (supplied_dependents_drive_invalidation Scenario.normalizePath
              Scenario.theme [Scenario.button]
              (snd (Scenario.get Scenario.button Scenario.started)) Scenario.app)
    as (_ & _ & Hmodified & Hgone & _).
  split.
  - apply Hmodified. apply list_elem_of_here.
  - apply Hgone. apply list_elem_of_here.
Defined.

Lemma exported_string_is_the_content_witness :
  fst (Scenario.get Scenario.button Scenario.started) = Normal (js "resource = '.b{}'") ∧
  cache (snd (Scenario.get Scenario.button Scenario.started))
    !! Scenario.normalizePath Scenario.button
  = Some Scenario.buttonOutput.
Proof.
  destruct (exported_string_is_the_content
              Scenario.normalizePath Scenario.runAsChild Scenario.runInNewContext
              Scenario.button Scenario.started Scenario.app
              {| assets := {[ Scenario.button := js "resource = '.b{}'" ]};
                 errors := [];
                 fileDependencies := [Scenario.vars; Scenario.button] |}
              (js "resource = '.b{}'")
              (JsObject (JsString (js "resource = '.b{}'")))
              (js "resource = '.b{}'"))
    as (Hcontent & Hcached & _).
  - reflexivity.
  - discriminate.
  - vm_compute. reflexivity.
  - vm_compute. reflexivity.
  - vm_compute. reflexivity.
  - vm_compute. reflexivity.
  - vm_compute. reflexivity.
  - right. reflexivity.
  - split; [exact Hcontent |].
    etrans; [apply Hcached; reflexivity | vm_compute; reflexivity].
Defined.

Lemma missing_asset_gives_empty_content_witness :
  let r := get Scenario.normalizePath Faults.silentChild Scenario.runInNewContext
             Scenario.button Scenario.started in
  fst r = Normal [] ∧
  get Scenario.normalizePath Faults.silentChild Scenario.runInNewContext
    Scenario.button (snd r) = (Normal [], snd r).
Proof.
  cbv zeta.
  destruct (missing_asset_gives_empty_content
              Scenario.normalizePath Faults.silentChild Scenario.runInNewContext
              Scenario.button Scenario.started Scenario.app
              {| assets := ∅; errors := []; fileDependencies := [Scenario.button] |})
    as [Hcontent Hagain].
  - reflexivity.
  - discriminate.
  - vm_compute. reflexivity.
  - vm_compute. reflexivity.
  - vm_compute. reflexivity.
  - reflexivity.
  - split; [exact Hcontent |]. apply Hagain. reflexivity.
Defined.

Lemma normalized_aliases_share_a_cache_entry_witness :
  let l1 := snd (Scenario.get Scenario.button Scenario.started) in
  Scenario.get (js "src\button.scss") l1 = (Normal (js "resource = '.b{}'"), l1).
Proof.
  cbv zeta.
  destruct (normalized_aliases_share_a_cache_entry
              Scenario.normalizePath Scenario.runAsChild Scenario.runInNewContext
              Scenario.button (js "src\button.scss") Scenario.started Scenario.app
              {| assets := {[ Scenario.button := js "resource = '.b{}'" ]};
                 errors := [];
                 fileDependencies := [Scenario.vars; Scenario.button] |})
    as [Hget _].
  - reflexivity.
  - discriminate.
  - vm_compute. reflexivity.
  - vm_compute. reflexivity.
  - vm_compute. reflexivity.
  - vm_compute. reflexivity.
  - vm_compute. reflexivity.
  - exact Hget.
Defined.

Lemma child_compilers_use_the_latest_parent_witness :
  childRuns (snd (Scenario.get Scenario.button (Scenario.update Scenario.app None newLoader)))
  = [childRequest Scenario.app Scenario.button (Some Scenario.button) None None].
Proof.
  destruct (child_compilers_use_the_latest_parent
              Scenario.normalizePath Scenario.runAsChild Scenario.runInNewContext
              Scenario.app None newLoader) as (Hget & _ & Hmiss).
  apply Hget.
  - discriminate.
  - vm_compute. reflexivity.
  - by apply Hmiss.
Defined.

(** * Properties of the package manager detection *)

Lemma spanDigits_app s :
  s = (spanDigits s).1 ++ (spanDigits s).2 ∧
  Forall (λ c, isDigit c = true) (spanDigits s).1.
Proof.
  induction s as [|c s [IHs IHd]]; simpl; [by split |].
  destruct (isDigit c) eqn:Hc; [| by split].
  destruct (spanDigits s) as [digits tail]. simpl in *. split.
  - by rewrite <- IHs.
  - by constructor.
Qed.

Lemma spanDigits_stop digits c rest :
  Forall (λ c, isDigit c = true) digits →
  isDigit c = false →
  spanDigits (digits ++ c :: rest) = (digits, c :: rest).
Proof.
  intros Hdigits Hc. induction Hdigits as [|d digits Hd _ IH]; simpl.
  - by rewrite Hc.
  - by rewrite Hd, IH.
Qed.

(** What the regular expression accepts: a non-empty run of digits, then a
    dot, then anything. *)
Lemma majorGroup_Some_iff version digits :
  majorGroup version = Some digits ↔
  digits ≠ [] ∧ Forall (λ c, isDigit c = true) digits ∧
  ∃ rest, version = digits ++ 46 :: rest.
Proof.
  unfold majorGroup. split.
  - destruct (spanDigits_app version) as [Happ Hdigits].
    destruct (spanDigits version) as [[|d ds] [|c rest]]; simpl in *; try done.
    destruct (c =? 46) eqn:Hc; [| done].
    apply N.eqb_eq in Hc as ->.
    intros [= <-]. split_and!; [done | done | eauto].
  - intros (Hne & Hdigits & rest & ->).
    rewrite spanDigits_stop by done. by destruct digits.
Qed.

Section Detection.

Variable PackageManager : Type.
Context `{EqDecision PackageManager}.
Variables Npm Yarn : PackageManager.
Variable configured : option PackageManager.
Variable execSync : jsstring -> option jsstring.
Variable existsSync : jsstring -> bool.
Variable join : jsstring -> jsstring -> jsstring.

Local Abbreviation supportsYarn := (PackageManagers.supportsYarn execSync).
Local Abbreviation supportsNpm := (PackageManagers.supportsNpm execSync).
Local Abbreviation getPackageManager :=
  (PackageManagers.getPackageManager PackageManager Npm Yarn configured
     execSync existsSync join).
Local Abbreviation ensureCompatibleNpm :=
  (PackageManagers.ensureCompatibleNpm PackageManager Npm Yarn configured
     execSync existsSync join).

(** X13: a configured package manager is returned as it is, whatever is
    installed.  Without one the answer is yarn or npm, and it is yarn
    exactly when [yarn --version] runs and either [npm --version] does not,
    or the project has a [yarn.lock] and no [package-lock.json]: with both
    tools installed only an unambiguous [yarn.lock] selects yarn, and npm
    is the answer in every other case, also when npm is not installed. *)
Theorem package_manager_detection root :
  (∀ packageManager, configured = Some packageManager →
                     getPackageManager root = packageManager) ∧
  (configured = None →
   (getPackageManager root = Yarn ∨ getPackageManager root = Npm) ∧
   (Yarn ≠ Npm →
    (getPackageManager root = Yarn ↔
     supportsYarn = true ∧
     (supportsNpm = false ∨
      existsSync (join root (js "yarn.lock")) = true ∧
      existsSync (join root (js "package-lock.json")) = false)))).
Proof.
  unfold PackageManagers.getPackageManager. split.
  - by intros packageManager ->.
  - intros ->.
    destruct supportsYarn, supportsNpm,
      (existsSync (join root (js "yarn.lock"))),
      (existsSync (join root (js "package-lock.json"))); simpl;
      (split; [by auto |]); intros Hne; split;
      try (intros H; by (try symmetry in H));
      try (intros [? [? | [? ?]]]; done); auto.
Qed.

(** X14: [ensureCompatibleNpm] either returns or ends the process with
    exit code 3.  It returns exactly when npm is not the package manager in
    use, or [npm --version] cannot be run, or the trimmed output starts
    with a run of digits that reads 6 and is followed by a dot. *)
Theorem npm_compatibility_check root :
  (ensureCompatibleNpm root = Returns ∨
   ∃ stdout, execSync (js "npm --version") = Some stdout ∧
             ensureCompatibleNpm root
             = Exits 3 (incompatibleNpmMessage (trim stdout))) ∧
  (ensureCompatibleNpm root = Returns ↔
   getPackageManager root ≠ Npm ∨
   execSync (js "npm --version") = None ∨
   ∃ stdout digits rest,
     execSync (js "npm --version") = Some stdout ∧
     trim stdout = digits ++ 46 :: rest ∧
     digits ≠ [] ∧
     Forall (λ c, isDigit c = true) digits ∧
     numberOfDigits digits = 6).
Proof.
  unfold PackageManagers.ensureCompatibleNpm.
  destruct (decide (getPackageManager root = Npm)) as [Hnpm|Hother];
    [| split; [by left | split; [by left | done]]].
  destruct (execSync (js "npm --version")) as [stdout|] eqn:Hexec;
    [| split; [by left | split; [by (right; left) | done]]].
  cbv zeta. unfold majorIsSix.
  destruct (majorGroup (trim stdout)) as [digits|] eqn:Hgroup.
  - apply majorGroup_Some_iff in Hgroup as Hshape.
    destruct Hshape as (Hne & Hdigits & rest & Hversion).
    destruct (numberOfDigits digits =? 6) eqn:Hsix.
    + apply N.eqb_eq in Hsix. split; [by left |]. split; [| done].
      intros _. right. right. exists stdout, digits, rest. by split_and!.
    + apply N.eqb_neq in Hsix. split; [right; eauto |]. split; [done |].
      intros [Hother | [Hnone | (stdout' & digits' & rest' & [= <-] & Hv & Hne' & Hd' & Hsix')]];
        [done | done |].
      assert (Hgroup' : majorGroup (trim stdout) = Some digits')
        by (apply majorGroup_Some_iff; eauto).
      congruence.
  - split; [right; eauto |]. split; [done |].
    intros [Hother | [Hnone | (stdout' & digits' & rest' & [= <-] & Hv & Hne' & Hd' & Hsix')]];
      [done | done |].
    assert (Hgroup' : majorGroup (trim stdout) = Some digits')
      by (apply majorGroup_Some_iff; eauto).
    congruence.
Qed.

End Detection.

Lemma package_manager_detection_witness :
  PackageManagers.getPackageManager Machine.Manager Machine.npm Machine.yarn
    (Some Machine.pnpm) Machine.execSync Machine.existsSync Machine.join (js "/app")
  = Machine.pnpm ∧
  PackageManagers.getPackageManager Machine.Manager Machine.npm Machine.yarn
    None Machine.execSync Machine.existsSync Machine.join (js "/app")
  = Machine.yarn.
Proof.
  split.
  - by apply (package_manager_detection Machine.Manager Machine.npm Machine.yarn
                (Some Machine.pnpm) Machine.execSync Machine.existsSync Machine.join
                (js "/app")).
  - destruct (package_manager_detection Machine.Manager Machine.npm Machine.yarn
                None Machine.execSync Machine.existsSync Machine.join (js "/app"))
      as [_ Hdetect].
    destruct Hdetect as [_ Hyarn]; [reflexivity |].
    apply Hyarn; [discriminate |].
    split; [reflexivity | right; split; reflexivity].
Defined.

Lemma npm_compatibility_check_witness :
  PackageManagers.ensureCompatibleNpm Machine.Manager Machine.npm Machine.yarn
    None (Machine.withNpm (js "6.14.8" ++ [10])) Machine.existsSync Machine.join
    (js "/elsewhere")
  = Returns.
Proof.
  apply (npm_compatibility_check Machine.Manager Machine.npm Machine.yarn
           None (Machine.withNpm (js "6.14.8" ++ [10])) Machine.existsSync Machine.join
           (js "/elsewhere")).
  right. right. exists (js "6.14.8" ++ [10]), (js "6"), (js "14.8").
  split_and!.
  - reflexivity.
  - reflexivity.
  - discriminate.
  - repeat constructor.
  - reflexivity.
Defined.

(** * Properties of the options handed to Karma *)

Lemma split_not_nil separator s : split separator s ≠ [].
Proof.
  destruct s as [|c s]; simpl; [done |].
  destruct (c =? separator); [done |]. by destruct (split separator s).
Qed.

Lemma join_split separator s : join separator (split separator s) = s.
Proof.
  induction s as [|c s IH]; simpl; [done |].
  destruct (c =? separator) eqn:Hc.
  - apply N.eqb_eq in Hc as ->.
    pose proof (split_not_nil separator s) as Hne.
    destruct (split separator s) as [|piece pieces]; [done |].
    by rewrite <- IH.
  - pose proof (split_not_nil separator s) as Hne.
    destruct (split separator s) as [|piece pieces]; [done |].
    rewrite <- IH. by destruct pieces.
Qed.

Lemma split_pieces_have_no_separator separator s piece :
  piece ∈ split separator s → separator ∉ piece.
Proof.
  revert piece. induction s as [|c s IH]; simpl; intros piece.
  - intros ->%list_elem_of_singleton. by intros ?%elem_of_nil.
  - destruct (c =? separator) eqn:Hc.
    + intros [-> | Hin]%elem_of_cons; [by intros ?%elem_of_nil | by apply IH].
    + apply N.eqb_neq in Hc.
      destruct (split separator s) as [|first others].
      * intros ->%list_elem_of_singleton.
        intros [-> | ?%elem_of_nil]%elem_of_cons; done.
      * intros [-> | Hin]%elem_of_cons.
        -- intros [-> | Hin]%elem_of_cons; [done |].
           by apply (IH first); [left |].
        -- apply IH. by right.
Qed.

Lemma split_app separator a b :
  split separator (a ++ separator :: b) = split separator a ++ split separator b.
Proof.
  induction a as [|c a IH]; simpl.
  - by rewrite N.eqb_refl.
  - destruct (c =? separator); [by rewrite IH |].
    rewrite IH. pose proof (split_not_nil separator a) as Hne.
    by destruct (split separator a).
Qed.

Lemma split_all_empty_iff separator s :
  (∀ piece, piece ∈ split separator s → piece = []) ↔
  (∀ c, c ∈ s → c = separator).
Proof.
  induction s as [|c s IH]; simpl.
  - split; [by intros _ c ?%elem_of_nil | by intros _ piece ->%list_elem_of_singleton].
  - destruct (c =? separator) eqn:Hc.
    + apply N.eqb_eq in Hc as ->. split.
      * intros H c [-> | Hin]%elem_of_cons; [done |].
        apply IH; [| done]. intros piece Hp. apply H. by right.
      * intros H piece [-> | Hin]%elem_of_cons; [done |].
        revert piece Hin. apply IH. intros c Hc. apply H. by right.
    + apply N.eqb_neq in Hc. split.
      * intros H. exfalso.
        destruct (split separator s) as [|first others].
        -- by specialize (H [c] (list_elem_of_here _ _)).
        -- by specialize (H (c :: first) (list_elem_of_here _ _)).
      * intros H. destruct Hc. apply H. left.
Qed.

Lemma foldl_split_bind separator (acc : list jsstring) given :
  foldl (λ acc curr, acc ++ split separator curr) acc given =
  acc ++ (given ≫= split separator).
Proof.
  revert acc. induction given as [|g given IH]; intros acc; simpl.
  - by rewrite app_nil_r.
  - by rewrite IH, app_assoc.
Qed.

Lemma filter_split_join separator given :
  filter (λ x : jsstring, x ≠ []) (split separator (join separator given)) =
  filter (λ x : jsstring, x ≠ []) (given ≫= split separator).
Proof.
  induction given as [|g [|h given] IH].
  - done.
  - simpl. by rewrite app_nil_r.
  - change (join separator (g :: h :: given))
      with (g ++ separator :: join separator (h :: given)).
    rewrite split_app, filter_app, IH.
    change ((g :: h :: given) ≫= split separator)
      with (split separator g ++ ((h :: given) ≫= split separator)).
    by rewrite filter_app.
Qed.

(** X15: the [browsers] option is split at its commas, empty pieces
    kept; joining the pieces with commas gives the option back.  The key is
    not set for an absent or empty option, and only then. *)
Theorem karma_browsers_round_trip browsers :
  (karmaBrowsers browsers = None ↔ browsers = None ∨ browsers = Some []) ∧
  (∀ pieces, karmaBrowsers browsers = Some pieces →
     pieces ≠ [] ∧
     (∀ piece, piece ∈ pieces → 44 ∉ piece) ∧
     browsers = Some (join 44 pieces)).
Proof.
  unfold karmaBrowsers. destruct browsers as [[|c given]|]; cbn [truthy].
  - split; [split; [by right | done] | done].
  - split; [split; [done | by intros [|]] |].
    intros pieces H.
    assert (pieces = split 44 (c :: given)) as -> by congruence.
    split_and!.
    + apply split_not_nil.
    + intros piece. apply split_pieces_have_no_separator.
    + by rewrite join_split.
  - split; [split; [by left | done] | done].
Qed.

(** X16: the reporters handed to Karma are names: none is empty, none
    holds a comma, and the list itself is not empty.  The key is not set
    exactly when the given reporters hold nothing but commas.  Giving the
    reporters one by one or as one comma-separated option is the same. *)
Theorem karma_reporters_are_names given :
  (∀ reporters, karmaReporters (Some given) = Some reporters →
     reporters ≠ [] ∧
     ∀ reporter, reporter ∈ reporters → reporter ≠ [] ∧ 44 ∉ reporter) ∧
  (karmaReporters (Some given) = None ↔
   ∀ option c, option ∈ given → c ∈ option → c = 44) ∧
  karmaReporters (Some given) = karmaReporters (Some [join 44 given]).
Proof.
  unfold karmaReporters. cbv zeta.
  rewrite !foldl_split_bind, !app_nil_l.
  change ([join 44 given] ≫= split 44) with (split 44 (join 44 given) ++ []).
  rewrite app_nil_r, filter_split_join.
  split_and!; [| | done].
  - intros reporters.
    destruct (filter _ (given ≫= split 44)) as [|r rs] eqn:Hfilter; [done |].
    simpl. intros [= <-]. split; [done |].
    intros reporter Hin. rewrite <- Hfilter in Hin.
    apply list_elem_of_filter in Hin as [Hne Hin]. split; [done |].
    apply list_elem_of_bind in Hin as (option & Hpiece & _).
    by apply (split_pieces_have_no_separator 44 option).
  - destruct (filter _ (given ≫= split 44)) as [|r rs] eqn:Hfilter; simpl.
    + split; [| done]. intros _ option c Hoption.
      apply (split_all_empty_iff 44 option). intros piece Hpiece.
      destruct piece as [|x piece]; [done |]. exfalso.
      assert (Hin : x :: piece ∈ filter (λ x : jsstring, x ≠ []) (given ≫= split 44)).
      { apply list_elem_of_filter. split; [done |].
        apply list_elem_of_bind. eauto. }
      rewrite Hfilter in Hin. by apply elem_of_nil in Hin.
    + split; [done |]. intros Hcommas. exfalso.
      assert (Hin : r ∈ filter (λ x : jsstring, x ≠ []) (given ≫= split 44))
        by (rewrite Hfilter; left).
      apply list_elem_of_filter in Hin as [Hne Hin].
      apply list_elem_of_bind in Hin as (option & Hpiece & Hoption).
      apply Hne. clear Hfilter Hne. revert r Hpiece.
      apply (split_all_empty_iff 44 option). intros c. by apply Hcommas.
Qed.

Lemma karma_browsers_round_trip_witness :
  karmaBrowsers (Some (js "Chrome,,Firefox"))
    = Some [js "Chrome"; []; js "Firefox"] ∧
  Some (js "Chrome,,Firefox") = Some (join 44 [js "Chrome"; []; js "Firefox"]).
Proof.
  split; [reflexivity |].
  destruct (karma_browsers_round_trip (Some (js "Chrome,,Firefox"))) as [_ Hpieces].
  destruct (Hpieces [js "Chrome"; []; js "Firefox"]) as (_ & _ & Hjoin);
    [reflexivity |].
  exact Hjoin.
Defined.

Lemma karma_reporters_are_names_witness :
  karmaReporters (Some [js "progress,"; js ""; js ",kjhtml"])
    = Some [js "progress"; js "kjhtml"] ∧
  js "kjhtml" ≠ [] ∧ 44 ∉ js "kjhtml".
Proof.
  split; [reflexivity |].
  destruct (karma_reporters_are_names [js "progress,"; js ""; js ",kjhtml"])
    as (Hnames & _ & _).
  destruct (Hnames [js "progress"; js "kjhtml"]) as [_ H]; [reflexivity |].
  apply H. right. left.
Defined.

(** * The changed files of an update, as a set *)

Lemma loader_eq (l l' : WebpackResourceLoader) :
  _parentCompilation l = _parentCompilation l' →
  _fileDependencies l = _fileDependencies l' →
  _reverseDependencies l = _reverseDependencies l' →
  cache l = cache l' →
  modifiedResources l = modifiedResources l' →
  outputPathCounter l = outputPathCounter l' →
  childRuns l = childRuns l' →
  l = l'.
Proof. destruct l, l'; simpl; congruence. Qed.

Lemma update_extensional normalizePath parent files l l' :
  _parentCompilation l' = Some parent →
  _fileDependencies l' = _fileDependencies l →
  _reverseDependencies l' = _reverseDependencies l →
  outputPathCounter l' = outputPathCounter l →
  childRuns l' = childRuns l →
  (∀ r, r ∈ modifiedResources l' ↔ ∃ f, f ∈ files ∧ r ∈ getAffectedResources l f) →
  (∀ k v, cache l' !! k = Some v ↔
          cache l !! k = Some v ∧
          ∀ f r, f ∈ files → r ∈ getAffectedResources l f → normalizePath r ≠ k) →
  l' = update normalizePath parent (Some files) l.
Proof.
  intros Hparent Hforward Hreverse Hcounter Hruns Hmodified Hcache.
  unfold Loader.update.
  set (l0 := set_modifiedResources ∅ (set_parentCompilation (Some parent) l)).
  destruct (foldl_evictAffected normalizePath files l0)
    as (Hp & Hf & Hr & Hc & Hn & Hm & Hk).
  change (getAffectedResources l0) with (getAffectedResources l) in *.
  change (_parentCompilation l0) with (Some parent) in Hp.
  change (_fileDependencies l0) with (_fileDependencies l) in Hf.
  change (_reverseDependencies l0) with (_reverseDependencies l) in Hr.
  change (outputPathCounter l0) with (outputPathCounter l) in Hc.
  change (childRuns l0) with (childRuns l) in Hn.
  change (cache l0) with (cache l) in Hk.
  change (modifiedResources l0) with (∅ : gset jsstring) in Hm.
  apply loader_eq; [congruence | congruence | congruence | | | congruence | congruence].
  - apply map_eq. intros k. apply option_eq. intros v. by rewrite Hcache, Hk.
  - apply set_eq. intros r. rewrite Hmodified, Hm. set_solver.
Qed.

(** X17: an [update] takes its changed files as a set.  Two lists with the
    same members, in any order and with any repetitions, lead to the same
    state; and an [update] repeated with the same changed files changes
    nothing more. *)
Theorem update_reads_changed_files_as_a_set normalizePath parent files files' l :
  (∀ f, f ∈ files ↔ f ∈ files') →
  update normalizePath parent (Some files) l
    = update normalizePath parent (Some files') l ∧
  update normalizePath parent (Some files)
    (update normalizePath parent (Some files') l)
    = update normalizePath parent (Some files) l.
Proof.
  intros Hsame.
  set (l0 := set_modifiedResources ∅ (set_parentCompilation (Some parent) l)).
  destruct (foldl_evictAffected normalizePath files l0)
    as (Hp & Hf & Hr & Hc & Hn & Hm & Hk).
  change (getAffectedResources l0) with (getAffectedResources l) in *.
  assert (Hfirst : update normalizePath parent (Some files) l
                   = update normalizePath parent (Some files') l).
  { apply update_extensional; unfold Loader.update; fold l0; try done.
    - intros r. rewrite Hm. split.
      + intros [H | (f & Hin & Hdep)]; [by apply elem_of_empty in H |].
        exists f. split; [by apply Hsame | done].
      + intros (f & Hin & Hdep). right. exists f. split; [by apply Hsame | done].
    - intros k v. rewrite Hk. split; intros [Hv Hall]; (split; [done |]);
        intros f r Hin; apply Hall; by apply Hsame. }
  split; [exact Hfirst |].
  rewrite <- Hfirst. symmetry.
  set (l1 := update normalizePath parent (Some files) l).
  assert (Haff : ∀ f, getAffectedResources l1 f = getAffectedResources l f).
  { intros f. unfold getAffectedResources, l1, Loader.update. fold l0. by rewrite Hr. }
  apply update_extensional; subst l1; unfold Loader.update; fold l0; try done.
  - intros r. rewrite Hm. split.
    + intros [H | (f & Hin & Hdep)]; [by apply elem_of_empty in H |].
      exists f. by rewrite Haff.
    + intros (f & Hin & Hdep). right. exists f. by rewrite Haff in Hdep.
  - intros k v. rewrite Hk. split.
    + intros [Hv Hall]. split_and!; [done | done |].
      intros f r Hin Hdep. rewrite Haff in Hdep. by apply (Hall f r).
    + by intros [[Hv Hall] _].
Qed.

Lemma update_reads_changed_files_as_a_set_witness :
  update Scenario.normalizePath Scenario.app
    (Some [Scenario.vars; Scenario.theme])
    (snd (Scenario.get Scenario.button Scenario.started))
  = update Scenario.normalizePath Scenario.app
      (Some [Scenario.theme; Scenario.vars; Scenario.theme])
      (snd (Scenario.get Scenario.button Scenario.started)).
Proof.
  refine (proj1 (update_reads_changed_files_as_a_set
                   Scenario.normalizePath Scenario.app
                   [Scenario.vars; Scenario.theme]
                   [Scenario.theme; Scenario.vars; Scenario.theme]
                   (snd (Scenario.get Scenario.button Scenario.started)) _)).
  intros f. rewrite !elem_of_cons. pose proof (elem_of_nil f). tauto.
Defined.
